(** * MCS Best Practices service: lookup engine, formatters, REST handlers,
      tools and resources of [main.py], embedded in Rocq.

    Records are the dictionaries that [json.load] produces.  A dictionary is
    kept as an association list because [main.py] iterates over one
    ([zones.items()]) and prints them, so the insertion order is observable;
    [dict_get] reads the first binding of a key.  The process-wide store
    [DATA] and the key allow-list [API_KEYS] are a [gmap] and a [gset].

    Text is a [string] of 8-bit characters.  [str.lower] and [str.upper] are
    modelled on the ASCII letters, which is what Python does on ASCII text;
    JSON numbers are the integers.

    Python exceptions are the [Raise] results of [result]; a handler is a
    function of the store that gives back its outcome and the store it
    leaves.  Logging, CORS, the Accept-header middleware and the transport of
    the tool protocol are outside the embedding.

    The file has two parts: the embedding of [main.py], function by function
    and under the names of the source, then the proofs. *)

From Stdlib Require Import Ascii.
From stdpp Require Import base list sorting strings gmap pretty.


(** ** Python values and exceptions *)

#[warnings="-register-all"]
Inductive value : Type :=
  | VNone
  | VBool (b : bool)
  | VInt (z : Z)
  | VStr (s : string)
  | VList (l : list value)
  | VDict (d : list (string * value)).

(** A record of a collection: a JSON object. *)
Definition item : Type := list (string * value).

Inductive exn : Type :=
  | KeyError (key : string)
  | TypeError
  | AttributeError
  | HTTPException (status_code : Z) (detail : string).

Inductive result (A : Type) : Type :=
  | Ok (a : A)
  | Raise (e : exn).
Arguments Ok {A} a.
Arguments Raise {A} e.

Definition rbind {A B} (r : result A) (k : A -> result B) : result B :=
  match r with
  | Ok a => k a
  | Raise e => Raise e
  end.

Declare Scope result_scope.
Delimit Scope result_scope with res.
Notation "x <- r ;; k" := (rbind r (fun x => k))
  (at level 100, r at next level, right associativity) : result_scope.

(** [for x in xs: body], where the body may raise: the accumulator is
    threaded from left to right and the first exception ends the loop. *)
Fixpoint for_each {A S} (xs : list A) (body : S -> A -> result S) (s : S)
  : result S :=
  match xs with
  | [] => Ok s
  | x :: xs' => rbind (body s x) (for_each xs' body)
  end.

(** ** Text primitives *)

Definition is_upper_ascii (c : ascii) : bool :=
  let n := nat_of_ascii c in ((65 <=? n) && (n <=? 90))%nat.

Definition is_lower_ascii (c : ascii) : bool :=
  let n := nat_of_ascii c in ((97 <=? n) && (n <=? 122))%nat.

Definition lower_char (c : ascii) : ascii :=
  if is_upper_ascii c then ascii_of_nat (nat_of_ascii c + 32) else c.

Definition upper_char (c : ascii) : ascii :=
  if is_lower_ascii c then ascii_of_nat (nat_of_ascii c - 32) else c.

Fixpoint str_map (f : ascii -> ascii) (s : string) : string :=
  match s with
  | EmptyString => EmptyString
  | String c s' => String (f c) (str_map f s')
  end.

(** [s.lower()] and [s.upper()]. *)
Definition lower (s : string) : string := str_map lower_char s.
Definition upper (s : string) : string := str_map upper_char s.

(** [s.replace(a, b)] for one-character [a] and [b], the only use in
    [main.py]. *)
Definition replace_char (a b : ascii) (s : string) : string :=
  str_map (fun c => if Ascii.eqb c a then b else c) s.

(** [needle in hay] on two strings: [needle] occurs as a contiguous run. *)
Fixpoint str_in (needle hay : string) : bool :=
  String.prefix needle hay ||
  match hay with
  | EmptyString => false
  | String _ hay' => str_in needle hay'
  end.

(** [s.startswith(p)]. *)
Definition startswith (s p : string) : bool := String.prefix p s.

(** [sep.join(parts)] on strings. *)
Definition join (sep : string) (parts : list string) : string :=
  String.concat sep parts.

Fixpoint chars (s : string) : list string :=
  match s with
  | EmptyString => []
  | String c s' => String c EmptyString :: chars s'
  end.

(** ** Dictionaries, truth values, equality *)

Fixpoint dict_get (d : list (string * value)) (k : string) : option value :=
  match d with
  | [] => None
  | (k', v) :: d' => if String.eqb k' k then Some v else dict_get d' k
  end.

(** [d.get(k)] and [d.get(k, dflt)]. *)
Definition get (d : item) (k : string) : value := default VNone (dict_get d k).
Definition get_or (d : item) (k : string) (dflt : value) : value :=
  default dflt (dict_get d k).

(** [d[k]]. *)
Definition subscript (d : item) (k : string) : result value :=
  match dict_get d k with
  | Some v => Ok v
  | None => Raise (KeyError k)
  end.

(** [v[k]] for a string key on an arbitrary value. *)
Definition subscript_value (v : value) (k : string) : result value :=
  match v with
  | VDict d => subscript d k
  | _ => Raise TypeError
  end.

(** [bool(v)]. *)
Definition truthy (v : value) : bool :=
  match v with
  | VNone => false
  | VBool b => b
  | VInt z => negb (z =? 0)%Z
  | VStr s => negb (String.eqb s "")
  | VList l => match l with [] => false | _ => true end
  | VDict d => match d with [] => false | _ => true end
  end.

(** [v == s] for a string [s]. *)
Definition eq_str (v : value) (s : string) : bool :=
  match v with
  | VStr t => String.eqb t s
  | _ => false
  end.

(** Truth of an optional query parameter ([str | None]): [if q:]. *)
Definition given (q : option string) : bool :=
  match q with
  | Some s => negb (String.eqb s "")
  | None => false
  end.

(** [s in v]: substring of a string, element of a list, key of a dict. *)
Definition contains (v : value) (s : string) : result bool :=
  match v with
  | VStr t => Ok (str_in s t)
  | VList l => Ok (existsb (fun x => eq_str x s) l)
  | VDict d => Ok (existsb (fun kv => String.eqb (fst kv) s) d)
  | _ => Raise TypeError
  end.

(** [v.lower()]. *)
Definition value_lower (v : value) : result string :=
  match v with
  | VStr t => Ok (lower t)
  | _ => Raise AttributeError
  end.

(** [for x in v]: the elements that the loop visits. *)
Definition iterate (v : value) : result (list value) :=
  match v with
  | VStr t => Ok (map VStr (chars t))
  | VList l => Ok l
  | VDict d => Ok (map (fun kv => VStr (fst kv)) d)
  | _ => Raise TypeError
  end.

Fixpoint all_strings (l : list value) : result (list string) :=
  match l with
  | [] => Ok []
  | VStr s :: l' => rbind (all_strings l') (fun ss => Ok (s :: ss))
  | _ :: _ => Raise TypeError
  end.

(** [sep.join(v)] on an arbitrary value. *)
Definition join_value (sep : string) (v : value) : result string :=
  rbind (iterate v) (fun xs => rbind (all_strings xs) (fun ss => Ok (join sep ss))).

(** ** Printing: [str(v)], as used by f-strings *)

Definition hex_digit (n : nat) : ascii :=
  ascii_of_nat (if (n <? 10)%nat then 48 + n else 87 + n).

Definition repr_char (quote : ascii) (c : ascii) : string :=
  let n := nat_of_ascii c in
  if Ascii.eqb c "\"%char then "\\"
  else if Ascii.eqb c quote then String "\"%char (String c "")
  else if (n =? 10)%nat then "\n"
  else if (n =? 13)%nat then "\r"
  else if (n =? 9)%nat then "\t"
  else if ((n <? 32) || (n =? 127))%nat then
    String "\"%char (String "x"%char (String (hex_digit (n / 16)) (String (hex_digit (n mod 16)) "")))
  else String c "".

Fixpoint str_concat_map (f : ascii -> string) (s : string) : string :=
  match s with
  | EmptyString => EmptyString
  | String c s' => f c +:+ str_concat_map f s'
  end.

(** [repr(s)]: single quotes unless the text has a single and no double
    quote. *)
Definition repr_str (s : string) : string :=
  let quote : ascii :=
    if str_in "'" s && negb (str_in (String (ascii_of_nat 34) "") s)
    then ascii_of_nat 34 else "'"%char in
  String quote (str_concat_map (repr_char quote) s) +:+ String quote "".

Fixpoint repr (v : value) : string :=
  match v with
  | VNone => "None"
  | VBool true => "True"
  | VBool false => "False"
  | VInt z => pretty z
  | VStr s => repr_str s
  | VList l => "[" +:+ join ", " (map repr l) +:+ "]"
  | VDict d =>
      "{" +:+ join ", " (map (fun kv => repr_str (fst kv) +:+ ": " +:+ repr (snd kv)) d) +:+ "}"
  end.

Definition str (v : value) : string :=
  match v with
  | VStr s => s
  | _ => repr v
  end.

(** The newline character of the f-strings. *)
Definition nl : string := String (ascii_of_nat 10) EmptyString.

(** ** Lookup engine *)

(** The inner loops of [search_items]: the score of one record. *)
Definition score_element (query_lower : string) (score : nat) (v : value) : nat :=
  match v with
  | VStr s => if str_in query_lower (lower s) then score + 1 else score
  | _ => score
  end.

Definition score_field (query_lower : string) (item : item) (score : nat)
    (field : string) : nat :=
  match get_or item field (VStr "") with
  | VStr s => if str_in query_lower (lower s) then score + 1 else score
  | VList l => fold_left (score_element query_lower) l score
  | _ => score
  end.

Definition score_item (query_lower : string) (fields : list string) (item : item)
  : nat :=
  fold_left (score_field query_lower item) fields 0.

(** [results.sort(key=lambda x: x[0], reverse=True)].  [list.sort] is stable
    and, with [reverse=True], still keeps entries of equal key in their
    original order; the list with these two properties is unique, and
    insertion from the right computes it. *)
Fixpoint insert_desc (x : nat * item) (l : list (nat * item)) : list (nat * item) :=
  match l with
  | [] => [x]
  | y :: l' => if (fst y <=? fst x)%nat then x :: y :: l' else y :: insert_desc x l'
  end.

Definition sort_desc (l : list (nat * item)) : list (nat * item) :=
  foldr insert_desc [] l.

Definition search_items (items : list item) (query : string) (fields : list string)
  : list item :=
  if String.eqb query "" then take 10 items
  else
    let query_lower := lower query in
    let results :=
      fold_left
        (fun results item =>
           let score := score_item query_lower fields item in
           if (0 <? score)%nat then results ++ [(score, item)] else results)
        items [] in
    let results := sort_desc results in
    map snd (take 10 results).

Fixpoint find_by_id (items : list item) (item_id : string) : option item :=
  match items with
  | [] => None
  | item :: items' =>
      if eq_str (get item "id") item_id then Some item
      else find_by_id items' item_id
  end.

(** ** Formatters *)

Local Open Scope result_scope.

Definition format_best_practice_full (item : item) : result string :=
  title <- subscript item "title";;
  description <- subscript item "description";;
  tags <- join_value ", " (get_or item "tags" (VList []));;
  Ok (join nl
        [ "# " +:+ str title;
          nl +:+ "**Category**: " +:+ str (get_or item "category" (VStr "N/A"));
          "**Difficulty**: " +:+ str (get_or item "difficulty" (VStr "N/A"));
          nl +:+ "**Description**: " +:+ str description;
          nl +:+ "**Rationale**: " +:+ str (get_or item "rationale" (VStr ""));
          nl +:+ "**Good example**: " +:+ str (get_or item "example_good" (VStr ""));
          "**Bad example**: " +:+ str (get_or item "example_bad" (VStr ""));
          nl +:+ "**Tags**: " +:+ tags ]).

Definition format_snippet_full (item : item) : result string :=
  title <- subscript item "title";;
  tags <- join_value ", " (get_or item "tags" (VList []));;
  Ok (join nl
        [ "# " +:+ str title;
          nl +:+ "**Language**: " +:+ str (get_or item "language" (VStr "unknown"));
          "**Use case**: " +:+ str (get_or item "use_case" (VStr ""));
          nl +:+ "```" +:+ str (get_or item "language" (VStr "")) +:+ nl
             +:+ str (get_or item "code" (VStr "")) +:+ nl +:+ "```";
          nl +:+ "**Explanation**: " +:+ str (get_or item "explanation" (VStr ""));
          nl +:+ "**Tags**: " +:+ tags ]).

(** [if item.get(key): lines.append(heading); for x in item[key]:
    lines.append(f'- {x}')].  After a truthy [item.get(key)] the key is
    present, so [item[key]] is [item.get(key)]; the formatters below read
    such guarded subscripts through [get]. *)
Definition bullet_section (item : item) (key heading : string) (lines : list string)
  : result (list string) :=
  if truthy (get item key) then
    xs <- iterate (get item key);;
    Ok (lines ++ [heading] ++ map (fun x => "- " +:+ str x) xs)
  else Ok lines.

Definition step_lines (lines : list string) (step : value) : result (list string) :=
  number <- subscript_value step "step";;
  action <- subscript_value step "action";;
  details <- subscript_value step "details";;
  Ok (lines ++ [ nl +:+ "**Step " +:+ str number +:+ "**: " +:+ str action;
                 "  " +:+ str details ]).

Definition steps_section (item : item) (lines : list string) : result (list string) :=
  if truthy (get item "steps") then
    steps <- iterate (get item "steps");;
    for_each steps step_lines (lines ++ [nl +:+ "**Resolution steps**:"])
  else Ok lines.

(** The body shared by [format_troubleshooting_full] and the tool
    [troubleshoot_issue], up to the joining of the lines. *)
Definition troubleshooting_lines (item : item) : result (list string) :=
  title <- subscript item "title";;
  lines <- bullet_section item "symptoms" (nl +:+ "**Symptoms**:") ["# " +:+ str title];;
  lines <- bullet_section item "causes" (nl +:+ "**Possible causes**:") lines;;
  steps_section item lines.

Definition format_troubleshooting_full (item : item) : result string :=
  lines <- troubleshooting_lines item;;
  Ok (join nl lines).

Definition format_tip_full (item : item) : result string :=
  title <- subscript item "title";;
  let lines := [ "# " +:+ str title; nl +:+ str (get_or item "tip" (VStr "")) ] in
  let lines :=
    if truthy (get item "why_it_matters")
    then lines ++ [nl +:+ "*Why it matters*: " +:+ str (get item "why_it_matters")]
    else lines in
  tags <- join_value ", " (get_or item "tags" (VList []));;
  Ok (join nl (lines ++ [nl +:+ "**Tags**: " +:+ tags])).

(** One turn of [for zone, info in item.get("zones", {}).items()]. *)
Definition zone_lines (lines : list string) (entry : string * value)
  : result (list string) :=
  let (zone, info) := entry in
  match info with
  | VDict info =>
      let available :=
        if truthy (get info "available") then "Available" else "Not available" in
      let lines := lines ++ [nl +:+ "**" +:+ upper zone +:+ "**: " +:+ available] in
      let lines :=
        if truthy (get info "reason")
        then lines ++ ["  Reason: " +:+ str (get info "reason")]
        else lines in
      if truthy (get info "requirements") then
        requirements <- join_value ", " (get info "requirements");;
        Ok (lines ++ ["  Requirements: " +:+ requirements])
      else Ok lines
  | _ => Raise AttributeError
  end.

Definition format_governance_full (item : item) : result string :=
  let lines :=
    [ "# " +:+ str (get_or item "display_name" (get item "feature"));
      nl +:+ "**Minimum zone required**: "
         +:+ str (get_or item "minimum_zone" (VStr "unknown"));
      nl +:+ "**Availability by zone**:" ] in
  match get_or item "zones" (VDict []) with
  | VDict zones =>
      lines <- for_each zones zone_lines lines;;
      let lines :=
        if truthy (get item "justification_template")
        then lines ++ [nl +:+ "**Justification template**:" +:+ nl +:+ "> "
                          +:+ str (get item "justification_template")]
        else lines in
      Ok (join nl lines)
  | _ => Raise AttributeError
  end.

Local Close Scope result_scope.

(** ** The data store and the handler monad

    [DATA] is a process-wide dictionary from collection names to lists of
    records.  A handler runs against the store and either returns or raises;
    the store it leaves behind is part of its outcome. *)

Definition M (A : Type) : Type :=
  gmap string (list item) -> result A * gmap string (list item).

Definition ret {A} (a : A) : M A := fun DATA => (Ok a, DATA).

Definition raise {A} (e : exn) : M A := fun DATA => (Raise e, DATA).

Definition bind {A B} (m : M A) (k : A -> M B) : M B :=
  fun DATA =>
    match m DATA with
    | (Ok a, DATA') => k a DATA'
    | (Raise e, DATA') => (Raise e, DATA')
    end.

Definition lift {A} (r : result A) : M A := fun DATA => (r, DATA).

(** [DATA.get(key, [])]. *)
Definition data_get (key : string) : M (list item) :=
  fun DATA => (Ok (default [] (DATA !! key)), DATA).

(** [bool(DATA)]. *)
Definition data_loaded : M bool :=
  fun DATA => (Ok (negb (bool_decide (DATA = ∅))), DATA).

(** [DATA[key] = items]. *)
Definition data_set (key : string) (items : list item) : M unit :=
  fun DATA => (Ok tt, <[key := items]> DATA).

Declare Scope handler_scope.
Delimit Scope handler_scope with handler.
Notation "x <- m ;; k" := (bind m (fun x => k))
  (at level 100, m at next level, right associativity) : handler_scope.
Notation "m ;;; k" := (bind m (fun _ => k))
  (at level 100, right associativity) : handler_scope.

Local Open Scope handler_scope.

(** *** Startup *)

(** [load_json]: the parsed content of a data file, or the empty list when
    the file does not exist.  [files] maps the names of the files present in
    the data directory to their content. *)
Definition load_json (files : gmap string (list item)) (filename : string)
  : list item :=
  default [] (files !! filename).

Definition lifespan (files : gmap string (list item)) : M unit :=
  data_set "best_practices" (load_json files "best_practices.json");;;
  data_set "snippets" (load_json files "snippets.json");;;
  data_set "troubleshooting" (load_json files "troubleshooting.json");;;
  data_set "tips" (load_json files "tips.json");;;
  data_set "governance" (load_json files "governance.json").

(** *** Access control *)

Record request : Type := {
  path : string;
  method : string;
  headers : list (string * string)
}.

(** [request.headers.get(name)]: header names compare without case, the
    first occurrence is read. *)
Definition headers_get (hs : list (string * string)) (name : string)
  : option string :=
  snd <$> List.find (fun kv => String.eqb (lower (fst kv)) (lower name)) hs.

Inductive outcome : Type :=
  | CallNext (r : request)
  | JSONResponse (status_code : Z) (content : list (string * value)).

Definition auth_middleware (API_KEYS : gset string) (request : request) : outcome :=
  if String.eqb (path request) "/health" || String.eqb (method request) "OPTIONS"
  then CallNext request
  else if startswith (path request) "/mcp" && String.eqb (method request) "GET"
  then JSONResponse 200 [ ("status", VStr "ok");
                          ("server", VStr "MCS Best Practices MCP");
                          ("protocol", VStr "mcp-streamable-1.0") ]
  else
    let api_key := headers_get (headers request) "X-API-Key" in
    if negb (given api_key) || negb (bool_decide (default "" api_key ∈ API_KEYS))
    then JSONResponse 401 [ ("detail", VStr "Invalid or missing API key") ]
    else CallNext request.

(** *** REST endpoints *)

Record listing : Type := { results : list item; total : nat }.

(** [if p: items = [i for i in items if i.get(field) == p]]. *)
Definition filter_field (field : string) (p : option string) (items : list item)
  : list item :=
  if given p
  then List.filter (fun i => eq_str (get i field) (default "" p)) items
  else items.

(** [if q: items = search_items(items, q, fields)]. *)
Definition search_if_given (q : option string) (fields : list string)
    (items : list item) : list item :=
  if given q then search_items items (default "" q) fields else items.

Definition health : M (string * bool) :=
  loaded <- data_loaded;;
  ret ("healthy", loaded).

Definition list_best_practices (q category difficulty : option string) : M listing :=
  items <- data_get "best_practices";;
  let items := filter_field "category" category items in
  let items := filter_field "difficulty" difficulty items in
  let items :=
    search_if_given q ["title"; "description"; "tags"; "rationale"] items in
  ret {| results := take 10 items; total := length items |}.

(** The truth value of a [dict | None]: [None] and the empty dictionary are
    false.  [nonempty found] is [Some item] exactly when [if found:] runs. *)
Definition nonempty (found : option item) : option item :=
  match found with
  | Some item => if truthy (VDict item) then Some item else None
  | None => None
  end.

(** [item = find_by_id(...); if not item: raise HTTPException(404); return
    item]. *)
Definition get_or_404 (found : option item) : M item :=
  match nonempty found with
  | Some item => ret item
  | None => raise (HTTPException 404 "Not found")
  end.

Definition get_best_practice (id : string) : M item :=
  items <- data_get "best_practices";;
  get_or_404 (find_by_id items id).

Definition list_snippets (q language : option string) : M listing :=
  items <- data_get "snippets";;
  let items :=
    if given language && negb (String.eqb (default "" language) "any")
    then List.filter (fun i => eq_str (get i "language") (default "" language)) items
    else items in
  let items := search_if_given q ["title"; "description"; "tags"; "use_case"] items in
  ret {| results := take 10 items; total := length items |}.

Definition get_snippet (id : string) : M item :=
  items <- data_get "snippets";;
  get_or_404 (find_by_id items id).

Definition list_troubleshooting (q category : option string) : M listing :=
  items <- data_get "troubleshooting";;
  let items := filter_field "category" category items in
  let items := search_if_given q ["title"; "symptoms"; "causes"; "tags"] items in
  ret {| results := take 10 items; total := length items |}.

Definition get_troubleshooting_by_id (id : string) : M item :=
  items <- data_get "troubleshooting";;
  get_or_404 (find_by_id items id).

Definition list_tips (category : option string) : M listing :=
  items <- data_get "tips";;
  let items := filter_field "category" category items in
  ret {| results := items; total := length items |}.

(** [feature.lower().replace(' ', '-').replace('_', '-')]. *)
Definition normalize (feature : string) : string :=
  replace_char "_" "-" (replace_char " " "-" (lower feature)).

(** [for item in items: if test(item): return item], where the test may
    raise. *)
Fixpoint first_match (test : item -> result bool) (items : list item)
  : result (option item) :=
  match items with
  | [] => Ok None
  | item :: items' =>
      match test item with
      | Ok true => Ok (Some item)
      | Ok false => first_match test items'
      | Raise e => Raise e
      end
  end.

(** [a or b] on two tests that may raise: [b] runs only when [a] is false. *)
Definition or_else (a : bool) (b : result bool) : result bool :=
  if a then Ok true else b.

Definition feature_matches (feature_lower : string) (item : item) : result bool :=
  or_else (eq_str (get item "feature") feature_lower)
          (contains (get_or item "feature" (VStr "")) feature_lower).

Definition display_name_matches (feature_lower : string) (item : item)
  : result bool :=
  rbind (value_lower (get_or item "display_name" (VStr "")))
        (fun name => Ok (str_in feature_lower name)).

Definition get_governance (feature : string) : M item :=
  let feature_lower := normalize feature in
  items <- data_get "governance";;
  by_feature <- lift (first_match (feature_matches feature_lower) items);;
  match by_feature with
  | Some item => ret item
  | None =>
      items <- data_get "governance";;
      by_name <- lift (first_match (display_name_matches feature_lower) items);;
      match by_name with
      | Some item => ret item
      | None => raise (HTTPException 404 ("No governance info for: " +:+ feature))
      end
  end.

(** *** Tools *)

(** [enumerate(xs, 1)]. *)
Definition enumerate1 {A} (xs : list A) : list (nat * A) :=
  zip (seq 1 (length xs)) xs.

Definition best_practice_hit (lines : list string) (entry : nat * item)
  : result (list string) :=
  let (i, item) := entry in
  rbind (subscript item "title") (fun title =>
  rbind (subscript item "description") (fun description =>
  rbind (subscript item "id") (fun id =>
  Ok (lines ++
      [ nl +:+ "## " +:+ pretty i +:+ ". " +:+ str title;
        "**Description**: " +:+ str description;
        "**Rationale**: " +:+ str (get_or item "rationale" (VStr ""));
        "*Difficulty: " +:+ str (get_or item "difficulty" (VStr "N/A")) +:+ "*";
        "Resource URI: bestpractice://" +:+ str id ])))).

Definition search_best_practices (query : string) (category difficulty : option string)
  : M string :=
  items <- data_get "best_practices";;
  let items := filter_field "category" category items in
  let items := filter_field "difficulty" difficulty items in
  let results :=
    search_items items query ["title"; "description"; "tags"; "rationale"] in
  match results with
  | [] => ret "No best practices found matching your query."
  | _ =>
      lines <- lift (for_each (enumerate1 (take 5 results)) best_practice_hit []);;
      ret (join nl lines)
  end.

Definition snippet_hit (lines : list string) (item : item) : result (list string) :=
  rbind (subscript item "title") (fun title =>
  rbind (subscript item "id") (fun id =>
  Ok (lines ++
      [ nl +:+ "## " +:+ str title;
        "**Language**: " +:+ str (get_or item "language" (VStr "unknown"));
        "**Use case**: " +:+ str (get_or item "use_case" (VStr ""));
        nl +:+ "```" +:+ str (get_or item "language" (VStr "")) +:+ nl
           +:+ str (get_or item "code" (VStr "")) +:+ nl +:+ "```";
        nl +:+ "**Explanation**: " +:+ str (get_or item "explanation" (VStr ""));
        "Resource URI: snippet://" +:+ str id ]))).

Definition get_code_snippet (query : string) (language : option string) : M string :=
  items <- data_get "snippets";;
  let items :=
    if given language && negb (String.eqb (default "" language) "any")
    then List.filter (fun i => eq_str (get i "language") (default "" language)) items
    else items in
  let results := search_items items query ["title"; "description"; "use_case"; "tags"] in
  match results with
  | [] => ret "No code snippets found matching your query."
  | _ =>
      lines <- lift (for_each (take 3 results) snippet_hit []);;
      ret (join nl lines)
  end.

Definition related_guide (lines : list string) (other : item) : result (list string) :=
  rbind (subscript other "title") (fun title =>
  rbind (subscript other "id") (fun id =>
  Ok (lines ++ ["- " +:+ str title +:+ " (troubleshooting://" +:+ str id +:+ ")"]))).

Definition troubleshoot_issue (issue : string) : M string :=
  items <- data_get "troubleshooting";;
  let results := search_items items issue ["title"; "symptoms"; "causes"; "tags"] in
  match results with
  | [] => ret "No troubleshooting guides found for this issue."
  | item :: others =>
      lines <- lift (troubleshooting_lines item);;
      id <- lift (subscript item "id");;
      let lines := lines ++ [nl +:+ "Resource URI: troubleshooting://" +:+ str id] in
      lines <- lift
        (match others with
         | [] => Ok lines
         | _ => for_each (take 2 others) related_guide
                  (lines ++ [nl +:+ "**Other related guides**:"])
         end);;
      ret (join nl lines)
  end.

(** The comprehension test of [get_tips_for_feature]. *)
Definition tip_matches (feature_lower : string) (t : item) : result bool :=
  rbind (value_lower (get_or t "category" (VStr ""))) (fun category =>
  or_else (str_in feature_lower category)
    (rbind (value_lower (get_or t "title" (VStr ""))) (fun title =>
     or_else (str_in feature_lower title)
       (rbind (join_value " " (get_or t "tags" (VList []))) (fun tags =>
        Ok (str_in feature_lower (lower tags))))))).

(** [[t for t in items if test(t)]], where the test may raise. *)
Fixpoint filter_result (test : item -> result bool) (items : list item)
  : result (list item) :=
  match items with
  | [] => Ok []
  | t :: items' =>
      rbind (test t) (fun keep =>
      rbind (filter_result test items') (fun rest =>
      Ok (if keep then t :: rest else rest)))
  end.

(** The tip body is appended as it is stored, not through an f-string, so
    the lines are values and the final join checks that each is a string. *)
Definition tip_hit (lines : list value) (item : item) : result (list value) :=
  rbind (subscript item "title") (fun title =>
  let lines :=
    lines ++ [VStr (nl +:+ "## " +:+ str title); get_or item "tip" (VStr "")] in
  let lines :=
    if truthy (get item "why_it_matters")
    then lines ++ [VStr (nl +:+ "*Why it matters*: " +:+ str (get item "why_it_matters"))]
    else lines in
  rbind (subscript item "id") (fun id =>
  Ok (lines ++ [VStr ("Resource URI: tip://" +:+ str id)]))).

Definition get_tips_for_feature (feature : string) : M string :=
  let feature_lower := lower feature in
  items <- data_get "tips";;
  results <- lift (filter_result (tip_matches feature_lower) items);;
  match results with
  | [] => ret ("No tips found for '" +:+ feature +:+ "'.")
  | _ =>
      lines <- lift (for_each (take 5 results) tip_hit []);;
      lift (join_value nl (VList lines))
  end.

Definition zone_matches (feature_lower : string) (item : item) : result bool :=
  rbind (contains (get_or item "feature" (VStr "")) feature_lower) (fun in_feature =>
  or_else in_feature (display_name_matches feature_lower item)).

Definition check_governance_zone (feature : string) : M string :=
  let feature_lower := normalize feature in
  items <- data_get "governance";;
  result <- lift (first_match (zone_matches feature_lower) items);;
  match nonempty result with
  | Some result =>
      text <- lift (format_governance_full result);;
      name <- lift (subscript result "feature");;
      ret (text +:+ nl +:+ nl +:+ "Resource URI: governance://" +:+ str name)
  | None => ret ("No governance information found for '" +:+ feature +:+ "'.")
  end.

(** *** Resources *)

(** [format(item) if item else missing]. *)
Definition format_or (format : item -> result string) (missing : string)
    (found : option item) : M string :=
  match nonempty found with
  | Some item => lift (format item)
  | None => ret missing
  end.

Definition get_best_practice_resource (id : string) : M string :=
  items <- data_get "best_practices";;
  format_or format_best_practice_full ("Best practice '" +:+ id +:+ "' not found.")
    (find_by_id items id).

Definition get_snippet_resource (id : string) : M string :=
  items <- data_get "snippets";;
  format_or format_snippet_full ("Snippet '" +:+ id +:+ "' not found.")
    (find_by_id items id).

Definition get_troubleshooting_resource (id : string) : M string :=
  items <- data_get "troubleshooting";;
  format_or format_troubleshooting_full
    ("Troubleshooting guide '" +:+ id +:+ "' not found.") (find_by_id items id).

Definition get_tip_resource (id : string) : M string :=
  items <- data_get "tips";;
  format_or format_tip_full ("Tip '" +:+ id +:+ "' not found.") (find_by_id items id).

Definition get_governance_resource (feature : string) : M string :=
  let feature_lower := normalize feature in
  items <- data_get "governance";;
  match List.find (fun item => eq_str (get item "feature") feature_lower) items with
  | Some item => lift (format_governance_full item)
  | None => ret ("Governance info for '" +:+ feature +:+ "' not found.")
  end.

(** *** The calls a client can make, and the service after startup *)

Inductive call : Type :=
  | Health
  | ListBestPractices (q category difficulty : option string)
  | GetBestPractice (id : string)
  | ListSnippets (q language : option string)
  | GetSnippet (id : string)
  | ListTroubleshooting (q category : option string)
  | GetTroubleshootingById (id : string)
  | ListTips (category : option string)
  | GetGovernance (feature : string)
  | SearchBestPractices (query : string) (category difficulty : option string)
  | GetCodeSnippet (query : string) (language : option string)
  | TroubleshootIssue (issue : string)
  | GetTipsForFeature (feature : string)
  | CheckGovernanceZone (feature : string)
  | BestPracticeResource (id : string)
  | SnippetResource (id : string)
  | TroubleshootingResource (id : string)
  | TipResource (id : string)
  | GovernanceResource (feature : string).

Inductive reply : Type :=
  | HealthReply (status : string) (data_loaded : bool)
  | ListReply (l : listing)
  | ItemReply (i : item)
  | TextReply (s : string).

Definition fmap_M {A B} (f : A -> B) (m : M A) : M B :=
  x <- m;; ret (f x).

Definition serve (c : call) : M reply :=
  match c with
  | Health => fmap_M (fun h => HealthReply (fst h) (snd h)) health
  | ListBestPractices q category difficulty =>
      fmap_M ListReply (list_best_practices q category difficulty)
  | GetBestPractice id => fmap_M ItemReply (get_best_practice id)
  | ListSnippets q language => fmap_M ListReply (list_snippets q language)
  | GetSnippet id => fmap_M ItemReply (get_snippet id)
  | ListTroubleshooting q category => fmap_M ListReply (list_troubleshooting q category)
  | GetTroubleshootingById id => fmap_M ItemReply (get_troubleshooting_by_id id)
  | ListTips category => fmap_M ListReply (list_tips category)
  | GetGovernance feature => fmap_M ItemReply (get_governance feature)
  | SearchBestPractices query category difficulty =>
      fmap_M TextReply (search_best_practices query category difficulty)
  | GetCodeSnippet query language => fmap_M TextReply (get_code_snippet query language)
  | TroubleshootIssue issue => fmap_M TextReply (troubleshoot_issue issue)
  | GetTipsForFeature feature => fmap_M TextReply (get_tips_for_feature feature)
  | CheckGovernanceZone feature => fmap_M TextReply (check_governance_zone feature)
  | BestPracticeResource id => fmap_M TextReply (get_best_practice_resource id)
  | SnippetResource id => fmap_M TextReply (get_snippet_resource id)
  | TroubleshootingResource id => fmap_M TextReply (get_troubleshooting_resource id)
  | TipResource id => fmap_M TextReply (get_tip_resource id)
  | GovernanceResource feature => fmap_M TextReply (get_governance_resource feature)
  end.

(** A run of the service: each call is served against the store the previous
    one left, whether it returned or raised; the replies are collected. *)
Fixpoint serve_all (calls : list call) (DATA : gmap string (list item))
  : list (result reply) * gmap string (list item) :=
  match calls with
  | [] => ([], DATA)
  | c :: calls' =>
      let (r, DATA') := serve c DATA in
      let (rs, DATA'') := serve_all calls' DATA' in
      (r :: rs, DATA'')
  end.

Local Close Scope handler_scope.

(** ** The ranking of [search_items] in the words of the specification *)

(** A string value that contains the lowercased query, compared without
    case. *)
Definition matches_text (query_lower : string) (v : value) : bool :=
  match v with
  | VStr s => str_in query_lower (lower s)
  | _ => false
  end.

(** One point for a string field that matches, one point for each matching
    string element of a list field; an absent field gives nothing. *)
Definition spec_field_score (query_lower : string) (item : item) (field : string)
  : nat :=
  match dict_get item field with
  | Some (VStr s) => if matches_text query_lower (VStr s) then 1 else 0
  | Some (VList l) => length (List.filter (matches_text query_lower) l)
  | _ => 0
  end.

Definition spec_score (query_lower : string) (fields : list string) (item : item)
  : nat :=
  sum_list (map (spec_field_score query_lower item) fields).

(** Descending order of scores. *)
Definition by_score_desc (score : item -> nat) (a b : item) : Prop :=
  score b <= score a.

(** Pairs that carry the score of their record. *)
Definition scored (score : item -> nat) (l : list (nat * item)) : Prop :=
  Forall (fun p => fst p = score (snd p)) l.

(** ** Governance lookups: the three ways a record can answer a name *)

Definition governance (DATA : gmap string (list item)) : list item :=
  default [] (DATA !! "governance").

(** The record's [feature] is the name itself. *)
Definition feature_is (name : string) (it : item) : bool :=
  eq_str (get it "feature") name.

(** The record's [feature] text contains the name. *)
Definition feature_has (name : string) (it : item) : bool :=
  match get_or it "feature" (VStr "") with
  | VStr s => str_in name s
  | _ => false
  end.

(** The record's lowercased [display_name] text contains the name. *)
Definition name_has (name : string) (it : item) : bool :=
  match get_or it "display_name" (VStr "") with
  | VStr s => str_in name (lower s)
  | _ => false
  end.

Definition text_or_absent (o : option value) : bool :=
  match o with
  | None | Some (VStr _) => true
  | Some _ => false
  end.

(** The stored shape of the two fields that the lookups read: each is a
    string when it is present. *)
Definition governance_shaped (it : item) : bool :=
  text_or_absent (dict_get it "feature")
  && text_or_absent (dict_get it "display_name").


(** ** Access control, as the specification states it *)

(** The key header is missing, or its value is not in the allow-list. *)
Definition unauthorized (API_KEYS : gset string) (r : request) : Prop :=
  match headers_get (headers r) "X-API-Key" with
  | None => True
  | Some key => key ∉ API_KEYS
  end.

Definition rejection : outcome :=
  JSONResponse 401 [ ("detail", VStr "Invalid or missing API key") ].

(** Every unauthorized request to a path other than the health probe is
    answered with the 401 body. *)
Definition rejects_all_but_health (API_KEYS : gset string) (r : request) : Prop :=
  path r <> "/health" -> unauthorized API_KEYS r ->
  auth_middleware API_KEYS r = rejection.

(** ** Listings, as the specification states them *)

(** The records that a listing with the query [q] is about: those of
    positive score. *)
Definition matching (q : string) (fields : list string) (items : list item)
  : list item :=
  List.filter (fun it => (0 <? spec_score (lower q) fields it)%nat) items.

(** A handler that leaves the store as it found it. *)
Definition read_only {A} (m : M A) : Prop :=
  forall DATA, snd (m DATA) = DATA.

(** A formatter that returns a text for every record. *)
Definition never_raises (format : item -> result string) : Prop :=
  forall it, exists text, format it = Ok text.

(** ** The stored shape of the fields that the formatters read *)

Definition has_key (d : list (string * value)) (k : string) : bool :=
  match dict_get d k with
  | Some _ => true
  | None => false
  end.

Definition is_text (v : value) : bool :=
  match v with
  | VStr _ => true
  | _ => false
  end.

(** Absent, or a list of strings: [tags], [requirements]. *)
Definition texts_or_absent (o : option value) : bool :=
  match o with
  | None => true
  | Some (VList l) => forallb is_text l
  | Some _ => false
  end.

(** Absent, or a list: [symptoms], [causes]. *)
Definition list_or_absent (o : option value) : bool :=
  match o with
  | None | Some (VList _) => true
  | Some _ => false
  end.

(** A resolution step: an object with its three fields. *)
Definition step_shaped (v : value) : bool :=
  match v with
  | VDict d => has_key d "step" && has_key d "action" && has_key d "details"
  | _ => false
  end.

Definition steps_or_absent (o : option value) : bool :=
  match o with
  | None => true
  | Some (VList l) => forallb step_shaped l
  | Some _ => false
  end.

(** One entry of [zones]: an object whose [requirements] are texts. *)
Definition zone_shaped (entry : string * value) : bool :=
  match snd entry with
  | VDict info => texts_or_absent (dict_get info "requirements")
  | _ => false
  end.

Definition zones_or_absent (o : option value) : bool :=
  match o with
  | None => true
  | Some (VDict zones) => forallb zone_shaped zones
  | Some _ => false
  end.

(** ** The formatters' text, field by field

    What each formatter prints, said per field instead of by the loops of
    the source: a field that the record has is printed by its value, a field
    that it lacks by the default of the formatter, a section that is absent
    or empty is left out. *)

(** An optional field on its label line: the value of the key, or the
    default when the record has no such key. *)
Definition shown (d : list (string * value)) (key dflt : string) : string :=
  match dict_get d key with
  | Some v => str v
  | None => dflt
  end.

(** The strings of a list of string values. *)
Definition texts_of (l : list value) : list string :=
  flat_map (fun v => match v with VStr s => [s] | _ => [] end) l.

(** A list field joined on one line ([tags], [requirements]): nothing when
    the key is absent. *)
Definition joined (d : list (string * value)) (key sep : string) : string :=
  match dict_get d key with
  | Some (VList l) => join sep (texts_of l)
  | _ => ""
  end.

(** A bullet section ([symptoms], [causes]): its heading and one bullet per
    element, or no line at all when the key is absent or the list is empty. *)
Definition bullets (d : list (string * value)) (key heading : string) : list string :=
  match dict_get d key with
  | Some (VList (x :: l)) => heading :: map (fun x => "- " +:+ str x) (x :: l)
  | _ => []
  end.

(** The two lines of one resolution step. *)
Definition step_text (step : value) : list string :=
  match step with
  | VDict d =>
      [ nl +:+ "**Step " +:+ shown d "step" "" +:+ "**: " +:+ shown d "action" "";
        "  " +:+ shown d "details" "" ]
  | _ => []
  end.

Definition steps_text (d : list (string * value)) : list string :=
  match dict_get d "steps" with
  | Some (VList (s :: l)) =>
      (nl +:+ "**Resolution steps**:") :: concat (map step_text (s :: l))
  | _ => []
  end.

(** A line that is printed only for a key that is present with a non-empty
    value ([why_it_matters], [reason], [justification_template]). *)
Definition optional_line (d : list (string * value)) (key label : string)
  : list string :=
  match dict_get d key with
  | Some v => if truthy v then [label +:+ str v] else []
  | None => []
  end.

(** The lines of one zone: its availability, then its reason and its
    requirements when it has them. *)
Definition zone_text (entry : string * value) : list string :=
  match snd entry with
  | VDict info =>
      [ nl +:+ "**" +:+ upper (fst entry) +:+ "**: "
           +:+ match dict_get info "available" with
               | Some v => if truthy v then "Available" else "Not available"
               | None => "Not available"
               end ]
      ++ optional_line info "reason" "  Reason: "
      ++ match dict_get info "requirements" with
         | Some (VList (x :: l)) => ["  Requirements: " +:+ join ", " (texts_of (x :: l))]
         | _ => []
         end
  | _ => []
  end.

Definition zones_text (d : list (string * value)) : list string :=
  match dict_get d "zones" with
  | Some (VDict zones) => concat (map zone_text zones)
  | _ => []
  end.

(** The heading of a governance record: its display name, else its feature,
    else the printed form of the missing value. *)
Definition governance_heading (d : list (string * value)) : string :=
  match dict_get d "display_name" with
  | Some v => str v
  | None => shown d "feature" "None"
  end.

(** ** Sample stores *)

(** Two governance records: the first merely contains the name mcp in its
    [feature], the second has it as its [feature]. *)
Definition mcp_governance : gmap string (list item) :=
  {[ "governance" :=
       [ [("feature", VStr "mcp-servers"); ("display_name", VStr "MCP Servers")];
         [("feature", VStr "mcp"); ("display_name", VStr "Model Context Protocol")] ] ]}.

(** Eleven best practices whose titles all contain the word error. *)
Definition eleven_practices : list item :=
  map (fun i => [("id", VStr ("bp-" +:+ pretty i)); ("title", VStr "Error handling")])
      (seq 1 11).

Definition eleven_store : gmap string (list item) :=
  {[ "best_practices" := eleven_practices ]}.

(** A preflight request, which carries no key. *)
Definition preflight : request :=
  {| path := "/api/v1/best-practices"; method := "OPTIONS"; headers := [] |}.

(** A best practice with every optional field absent, and one troubleshooting
    guide with a resolution step. *)
Definition bare_practice : item :=
  [("id", VStr "bp-1"); ("title", VStr "Error handling");
   ("description", VStr "Handle errors")].

Definition guide : item :=
  [("id", VStr "ts-1"); ("title", VStr "Connector returns 403");
   ("symptoms", VList [VStr "403 in the test pane"]);
   ("steps", VList [VDict [("step", VInt 1); ("action", VStr "Check the key");
                           ("details", VStr "Open the connection settings")]])].

(** A request that carries a key outside the allow-list. *)
Definition wrong_key_get : request :=
  {| path := "/api/v1/best-practices"; method := "GET";
     headers := [("x-api-key", "wrong")] |}.

(** ** The key allow-list *)

(** [c.isspace()] on one character. *)
Definition is_space (c : ascii) : bool :=
  let n := nat_of_ascii c in
  ((9 <=? n) && (n <=? 13) || (28 <=? n) && (n <=? 32) || (n =? 133) || (n =? 160))%nat.

Fixpoint lstrip (s : string) : string :=
  match s with
  | EmptyString => EmptyString
  | String c s' => if is_space c then lstrip s' else s
  end.

Fixpoint rstrip (s : string) : string :=
  match s with
  | EmptyString => EmptyString
  | String c s' =>
      match rstrip s' with
      | EmptyString => if is_space c then EmptyString else String c EmptyString
      | String _ _ as rest => String c rest
      end
  end.

(** [s.strip()]. *)
Definition strip (s : string) : string := rstrip (lstrip s).

(** [s.split(sep)] for a one-character separator: the empty text gives one
    empty piece. *)
Fixpoint split_char (sep : ascii) (s : string) : list string :=
  match s with
  | EmptyString => [EmptyString]
  | String c s' =>
      if Ascii.eqb c sep then EmptyString :: split_char sep s'
      else
        match split_char sep s' with
        | piece :: pieces => String c piece :: pieces
        | [] => [String c EmptyString]
        end
  end.

(** [API_KEYS], as computed at import time from the environment:
    [set(key.strip() for key in os.getenv('API_KEYS', '').split(',') if
    key.strip())].  [env] is the value of the variable, if it is set. *)
Definition API_KEYS_of_env (env : option string) : gset string :=
  list_to_set
    (map strip
       (List.filter (fun key => negb (String.eqb (strip key) ""))
          (split_char "," (default "" env)))).

(** ** The Accept-header middleware *)

(** [d[k] = v] on a dictionary kept in insertion order: an existing key keeps
    its place, a new key goes to the end. *)
Fixpoint dict_set {V} (d : list (string * V)) (k : string) (v : V)
  : list (string * V) :=
  match d with
  | [] => [(k, v)]
  | (k', v') :: d' =>
      if String.eqb k' k then (k', v) :: d' else (k', v') :: dict_set d' k v
  end.

(** [dict(pairs)]. *)
Definition dict_of_pairs {V} (pairs : list (string * V)) : list (string * V) :=
  fold_left (fun d kv => dict_set d (fst kv) (snd kv)) pairs [].

Definition mcp_accept_middleware (request : request) : outcome :=
  if startswith (path request) "/mcp" && String.eqb (method request) "POST" then
    let accept := default "" (headers_get (headers request) "accept") in
    if negb (str_in "text/event-stream" accept) then
      let headers := dict_of_pairs (headers request) in
      let headers := dict_set headers "accept" "application/json, text/event-stream" in
      CallNext {| path := path request; method := method request; headers := headers |}
    else CallNext request
  else CallNext request.

(** Header names as an ASGI server delivers them: in lower case. *)
Definition lowercase_names (hs : list (string * string)) : Prop :=
  Forall (fun kv => lower (fst kv) = fst kv) hs.

(** The last value bound to a name in a list of pairs. *)
Definition last_value (hs : list (string * string)) (name : string) : option string :=
  snd <$> List.find (fun kv => String.eqb (fst kv) name) (rev hs).

(** ** Filters, in the words of the handlers' query parameters *)

(** A record passes the filter [p] on [field]: no value is given, or the
    field is exactly that text. *)
Definition passes (field : string) (p : option string) (it : item) : bool :=
  negb (given p) || eq_str (get it field) (default "" p).

(** The collection stored under a name: [DATA.get(name, [])]. *)
Definition stored (DATA : gmap string (list item)) (name : string) : list item :=
  default [] (DATA !! name).

Definition not_found : exn := HTTPException 404 "Not found".

(** The body that [auth_middleware] returns for a GET under /mcp. *)
Definition probe : outcome :=
  JSONResponse 200 [ ("status", VStr "ok");
                     ("server", VStr "MCS Best Practices MCP");
                     ("protocol", VStr "mcp-streamable-1.0") ].

(** The store after startup from the files of the data directory. *)
Definition started (files DATA : gmap string (list item)) : gmap string (list item) :=
  snd (lifespan files DATA).

(** A request that carries the key of the test suite, and the allow-list
    that holds it. *)
Definition bootcamp_keys : gset string := {["mcs-bootcamp-2025"]}.

Definition keyed_get : request :=
  {| path := "/api/v1/tips"; method := "GET";
     headers := [("accept", "application/json"); ("x-api-key", "mcs-bootcamp-2025")] |}.

(** A data directory that holds the tips only. *)
Definition tips_only : gmap string (list item) :=
  {[ "tips.json" := [ [("id", VStr "tip-1"); ("title", VStr "Name your topics")] ] ]}.

(** [c in s] for one character. *)
Fixpoint has_char (c : ascii) (s : string) : bool :=
  match s with
  | EmptyString => false
  | String c' s' => Ascii.eqb c' c || has_char c s'
  end.

(** A key as the allow-list can hold it: not empty, no white space at
    either end, no comma. *)
Definition clean_key (key : string) : Prop :=
  key <> "" /\ strip key = key /\ has_char "," key = false.

(** What [normalize] does to one character. *)
Definition normalize_char (c : ascii) : ascii :=
  let c := lower_char c in
  let c := if Ascii.eqb c " " then "-"%char else c in
  if Ascii.eqb c "_" then "-"%char else c.

(** The first value bound to exactly this name in a list of pairs. *)
Definition first_value (hs : list (string * string)) (name : string) : option string :=
  snd <$> List.find (fun kv => String.eqb (fst kv) name) hs.

(** The value that [mcp_accept_middleware] injects. *)
Definition streaming_accept : string := "application/json, text/event-stream".

(** A tool-protocol request whose Accept header was stripped on the way, and
    one with a repeated header. *)
Definition stripped_post : request :=
  {| path := "/mcp"; method := "POST";
     headers := [("content-type", "application/json");
                 ("x-api-key", "mcs-bootcamp-2025")] |}.

Definition repeated_post : request :=
  {| path := "/mcp"; method := "POST";
     headers := [("x-trace", "a"); ("accept", "application/json"); ("x-trace", "b")] |}.

(** Two best practices of different categories, and the store that holds
    them. *)
Definition handling_practice : item :=
  [("id", VStr "bp-1"); ("title", VStr "Error handling");
   ("description", VStr "Handle errors"); ("category", VStr "reliability");
   ("difficulty", VStr "beginner")].

Definition naming_practice : item :=
  [("id", VStr "bp-2"); ("title", VStr "Variables");
   ("description", VStr "Avoid errors in names"); ("category", VStr "authoring");
   ("difficulty", VStr "beginner")].

Definition two_practices : gmap string (list item) :=
  {[ "best_practices" := [naming_practice; handling_practice] ]}.

Definition search_fields : list string := ["title"; "description"; "tags"; "rationale"].

(** A store with the one troubleshooting guide, and a store whose only tip
    was saved without a title. *)
Definition guide_store : gmap string (list item) := {[ "troubleshooting" := [guide] ]}.

Definition untitled_tip : item := [("id", VStr "tip-9"); ("tip", VStr "Test early")].

Definition untitled_store : gmap string (list item) := {[ "tips" := [untitled_tip] ]}.

(** A GET under /mcp without a key. *)
Definition mcp_get : request := {| path := "/mcp/"; method := "GET"; headers := [] |}.

(** * Proofs *)

(** ** Text *)

Lemma lower_nonempty (s : string) : s <> "" -> lower s <> "".
Proof. destruct s; [congruence | discriminate]. Qed.

Lemma eqb_empty_false (s : string) : s <> "" -> String.eqb s "" = false.
Proof. intros H. by apply String.eqb_neq. Qed.

Lemma prefix_app (p s : string) :
  String.prefix p s = true <-> exists rest, s = p +:+ rest.
Proof.
  revert s. induction p as [|c p IH]; intros s.
  - split; [intros _; by exists s | by destruct s].
  - destruct s as [|c' s]; simpl.
    + split; [done | intros [rest H]; discriminate H].
    + destruct (Ascii.ascii_dec c c') as [->|Hne].
      * rewrite IH. split; intros [rest H]; exists rest.
        -- by rewrite H.
        -- by injection H.
      * split; [done | intros [rest H]; injection H; congruence].
Qed.

(** [str_in] is Python's substring test: the needle occurs in the hay
    between some text before it and some text after it. *)
Lemma str_in_substring (needle hay : string) :
  str_in needle hay = true <-> exists before after, hay = before +:+ needle +:+ after.
Proof.
  induction hay as [|c hay IH].
  - unfold str_in. rewrite orb_false_r, prefix_app. split.
    + intros [rest H]. by exists "", rest.
    + intros (before & after & H). destruct before; [by exists after | discriminate H].
  - change (str_in needle (String c hay))
      with (String.prefix needle (String c hay) || str_in needle hay).
    rewrite orb_true_iff, prefix_app, IH. split.
    + intros [[rest H] | (before & after & H)].
      * by exists "", rest.
      * exists (String c before), after. simpl. by rewrite H.
    + intros (before & after & H). destruct before as [|c' before].
      * left. by exists after.
      * right. exists before, after. by injection H.
Qed.

(** ** The score loops against the specification's count *)

Lemma score_element_fold (q : string) (l : list value) (acc : nat) :
  fold_left (score_element q) l acc
  = acc + length (List.filter (matches_text q) l).
Proof.
  revert acc. induction l as [|v l IH]; intros acc; simpl; [lia|].
  rewrite IH. destruct v; simpl; try lia.
  destruct (str_in q (lower s)); simpl; lia.
Qed.

Lemma score_field_spec (q : string) (it : item) (acc : nat) (field : string) :
  q <> "" ->
  score_field q it acc field = acc + spec_field_score q it field.
Proof.
  intros Hq. unfold score_field, spec_field_score, get_or.
  destruct (dict_get it field) as [v|]; simpl.
  - destruct v; simpl; try lia.
    + destruct (str_in q (lower s)); lia.
    + apply score_element_fold.
  - destruct q; [congruence | simpl; lia].
Qed.

Lemma score_item_spec (q : string) (fields : list string) (it : item) :
  q <> "" -> score_item q fields it = spec_score q fields it.
Proof.
  intros Hq. unfold score_item, spec_score.
  enough (forall acc, fold_left (score_field q it) fields acc
                      = acc + sum_list (map (spec_field_score q it) fields)) as H
    by (rewrite H; lia).
  induction fields as [|f fields IH]; intros acc; simpl; [lia|].
  rewrite IH, score_field_spec by done. lia.
Qed.

(** ** The result loop: scored records with a positive score, in order *)

Lemma results_loop (f : item -> nat) (items : list item) (acc : list (nat * item)) :
  fold_left
    (fun results it => if (0 <? f it)%nat then results ++ [(f it, it)] else results)
    items acc
  = acc ++ map (fun it => (f it, it)) (List.filter (fun it => (0 <? f it)%nat) items).
Proof.
  revert acc. induction items as [|it items IH]; intros acc; simpl.
  - by rewrite app_nil_r.
  - rewrite IH. destruct (0 <? f it)%nat; simpl; [|done].
    by rewrite <- app_assoc.
Qed.

(** ** The sort: a stable rearrangement into descending scores *)

Lemma insert_desc_perm (x : nat * item) (l : list (nat * item)) :
  insert_desc x l ≡ₚ x :: l.
Proof.
  induction l as [|y l IH]; simpl; [done|].
  destruct (fst y <=? fst x)%nat; [done|].
  rewrite IH. apply Permutation_swap.
Qed.

Lemma sort_desc_perm (l : list (nat * item)) : sort_desc l ≡ₚ l.
Proof.
  induction l as [|x l IH]; simpl; [done|].
  unfold sort_desc in *. simpl. rewrite insert_desc_perm. by rewrite IH.
Qed.

Lemma insert_desc_sorted (x : nat * item) (l : list (nat * item)) :
  StronglySorted (fun a b => fst b <= fst a) l ->
  StronglySorted (fun a b => fst b <= fst a) (insert_desc x l).
Proof.
  induction 1 as [|y l Hs IH Hy]; simpl.
  - repeat constructor.
  - destruct (Nat.leb_spec (fst y) (fst x)) as [Hle|Hlt].
    + constructor; [by constructor|].
      constructor; [done|].
      eapply Forall_impl; [exact Hy|]. simpl. intros; lia.
    + constructor; [done|].
      rewrite insert_desc_perm. constructor; [lia|done].
Qed.

Lemma sort_desc_sorted (l : list (nat * item)) :
  StronglySorted (fun a b => fst b <= fst a) (sort_desc l).
Proof.
  induction l as [|x l IH]; [constructor|].
  apply insert_desc_sorted, IH.
Qed.

Lemma insert_desc_stable (k : nat) (x : nat * item) (l : list (nat * item)) :
  List.filter (fun p => fst p =? k)%nat (insert_desc x l)
  = List.filter (fun p => fst p =? k)%nat (x :: l).
Proof.
  induction l as [|y l IH]; [done|].
  simpl insert_desc. destruct (Nat.leb_spec (fst y) (fst x)) as [Hle|Hlt]; [done|].
  simpl in *. rewrite IH.
  destruct (Nat.eqb_spec (fst y) k), (Nat.eqb_spec (fst x) k); try done; lia.
Qed.

Lemma sort_desc_stable (k : nat) (l : list (nat * item)) :
  List.filter (fun p => fst p =? k)%nat (sort_desc l)
  = List.filter (fun p => fst p =? k)%nat l.
Proof.
  induction l as [|x l IH]; [done|].
  change (sort_desc (x :: l)) with (insert_desc x (sort_desc l)).
  rewrite insert_desc_stable. simpl. by rewrite IH.
Qed.

Lemma scored_map (score : item -> nat) (l : list item) :
  scored score (map (fun it => (score it, it)) l).
Proof. induction l; simpl; by constructor. Qed.

Lemma scored_sort (score : item -> nat) (l : list (nat * item)) :
  scored score l -> scored score (sort_desc l).
Proof.
  unfold scored. intros H. eapply Permutation_Forall; [|exact H].
  symmetry. apply sort_desc_perm.
Qed.

Lemma scored_filter_snd (score : item -> nat) (k : nat) (l : list (nat * item)) :
  scored score l ->
  List.filter (fun it => score it =? k)%nat (map snd l)
  = map snd (List.filter (fun p => fst p =? k)%nat l).
Proof.
  induction 1 as [|p l Hp _ IH]; [done|].
  simpl. rewrite IH, Hp. by destruct (score (snd p) =? k)%nat.
Qed.

Lemma scored_sorted_snd (score : item -> nat) (l : list (nat * item)) :
  scored score l ->
  StronglySorted (fun a b => fst b <= fst a) l ->
  StronglySorted (by_score_desc score) (map snd l).
Proof.
  intros Hsc Hs. induction Hs as [|p l Hs IH Hp]; [constructor|].
  inversion Hsc as [|? ? Hp1 Hl]; subst. simpl. constructor; [by apply IH|].
  clear IH Hs Hsc. induction Hl as [|p' l Hp' _ IH]; simpl; [constructor|].
  inversion Hp; subst. constructor; [|by apply IH].
  unfold by_score_desc. lia.
Qed.

Lemma map_snd_scored (score : item -> nat) (l : list item) :
  map snd (map (fun it => (score it, it)) l) = l.
Proof. rewrite map_map. simpl. apply map_id. Qed.

(** The non-empty branch of [search_items], with the loops replaced by the
    list operations they compute. *)
Lemma search_items_nonempty (items : list item) (query : string) (fields : list string) :
  query <> "" ->
  search_items items query fields
  = take 10 (map snd (sort_desc
      (map (fun it => (spec_score (lower query) fields it, it))
         (List.filter (fun it => (0 <? spec_score (lower query) fields it)%nat) items)))).
Proof.
  intros Hq. unfold search_items.
  rewrite eqb_empty_false by done. cbv zeta.
  rewrite results_loop. simpl app.
  rewrite <- firstn_map. do 3 f_equal.
  pose proof (lower_nonempty _ Hq) as Hl.
  erewrite filter_ext; [|intros it; rewrite score_item_spec by done; reflexivity].
  apply map_ext. intros it. by rewrite score_item_spec.
Qed.

(** C5.  With an empty query, [search_items] returns the first
    min(10, length) records of the collection in their stored order,
    whatever the field set: nothing is filtered and nothing is ranked. *)
Theorem search_items_empty_query (items : list item) (fields : list string) :
  search_items items "" fields = take 10 items
  /\ length (search_items items "" fields) = 10 `min` length items.
Proof.
  assert (search_items items "" fields = take 10 items) as -> by reflexivity.
  split; [done | apply length_take].
Qed.

(** C6.  With a non-empty query, [search_items] lowercases the query and
    scores each record with one point per queried field whose string value
    contains it without regard to case, plus one point per matching string
    element of a queried list field.  The answer is the first ten of a list
    [ranked] that holds exactly the records of positive score, in descending
    score, with records of equal score in their original relative order. *)
Theorem search_items_ranked (items : list item) (query : string) (fields : list string) :
  query <> "" ->
  let score := spec_score (lower query) fields in
  exists ranked : list item,
    search_items items query fields = take 10 ranked
    /\ ranked ≡ₚ List.filter (fun it => 0 <? score it)%nat items
    /\ StronglySorted (by_score_desc score) ranked
    /\ (forall k, List.filter (fun it => score it =? k)%nat ranked
                  = List.filter (fun it => score it =? k)%nat
                      (List.filter (fun it => 0 <? score it)%nat items))
    /\ length (search_items items query fields) <= 10.
Proof.
  intros Hq score.
  set (kept := List.filter (fun it => (0 <? score it)%nat) items).
  set (pairs := map (fun it => (score it, it)) kept).
  assert (scored score pairs) as Hpairs by apply scored_map.
  exists (map snd (sort_desc pairs)).
  rewrite search_items_nonempty by done. fold score kept pairs.
  split; [done|]. split; [|split; [|split]].
  - rewrite sort_desc_perm. unfold pairs. by rewrite map_snd_scored.
  - apply scored_sorted_snd; [by apply scored_sort | apply sort_desc_sorted].
  - intros k. rewrite (scored_filter_snd score) by (by apply scored_sort).
    rewrite sort_desc_stable.
    rewrite <- (scored_filter_snd score) by done.
    unfold pairs. by rewrite map_snd_scored.
  - rewrite length_take. lia.
Qed.

Lemma find_by_id_spec (items : list item) (item_id : string) :
  match find_by_id items item_id with
  | Some it =>
      exists before after,
        items = before ++ it :: after
        /\ dict_get it "id" = Some (VStr item_id)
        /\ Forall (fun x => dict_get x "id" <> Some (VStr item_id)) before
  | None => Forall (fun x => dict_get x "id" <> Some (VStr item_id)) items
  end.
Proof.
  assert (forall x, eq_str (get x "id") item_id = true
                    <-> dict_get x "id" = Some (VStr item_id)) as Heq.
  { intros x. unfold get. destruct (dict_get x "id") as [[]|]; simpl; try by split.
    rewrite String.eqb_eq. split; [by intros -> | by intros [= ->]]. }
  induction items as [|x items IH]; simpl; [constructor|].
  destruct (eq_str (get x "id") item_id) eqn:Hx.
  - exists [], items. split; [done|]. split; [by apply Heq | constructor].
  - assert (dict_get x "id" <> Some (VStr item_id)) as Hne.
    { intros H. apply Heq in H. congruence. }
    destruct (find_by_id items item_id) as [it|].
    + destruct IH as (before & after & -> & Hit & Hb).
      exists (x :: before), after. split; [done|]. split; [done|]. by constructor.
    + by constructor.
Qed.

(** C7.  [find_by_id] returns the first record whose [id] is the given
    string, compared exactly and with case; when no record has it, also on
    the empty collection, it returns the not-found marker, and it raises
    nothing: the function is total. *)
Theorem find_by_id_first_match (items : list item) (item_id : string) :
  (forall it, find_by_id items item_id = Some it <->
     exists before after,
       items = before ++ it :: after
       /\ dict_get it "id" = Some (VStr item_id)
       /\ Forall (fun x => dict_get x "id" <> Some (VStr item_id)) before)
  /\ (find_by_id items item_id = None <->
        Forall (fun x => dict_get x "id" <> Some (VStr item_id)) items)
  /\ find_by_id [] item_id = None.
Proof.
  pose proof (find_by_id_spec items item_id) as H.
  split; [|split; [|done]].
  - intros it. split.
    + intros Hf. rewrite Hf in H. exact H.
    + intros (before & after & -> & Hit & Hb).
      destruct (find_by_id (before ++ it :: after) item_id) as [it'|] eqn:Hf.
      * destruct H as (b' & a' & Heq & Hit' & Hb').
        f_equal. clear Hf.
        revert b' Heq Hb'. induction Hb as [|x before Hx _ IH]; intros b' Heq Hb'.
        -- destruct b' as [|y b']; simpl in *; [congruence|].
           inversion Hb'; subst. congruence.
        -- destruct b' as [|y b']; simpl in *.
           ++ congruence.
           ++ inversion Hb'; subst. apply (IH b'); [congruence|done].
      * rewrite Forall_app in H. destruct H as [_ H]. inversion H; subst. done.
  - split.
    + intros Hf. by rewrite Hf in H.
    + intros Hall. destruct (find_by_id items item_id) as [it|]; [|done].
      destruct H as (before & after & -> & Hit & _).
      rewrite Forall_app in Hall. destruct Hall as [_ Hall].
      inversion Hall; subst. done.
Qed.

(** ** Governance lookups *)

Lemma prefix_refl (s : string) : String.prefix s s = true.
Proof.
  induction s as [|c s IH]; simpl; [done|].
  destruct (Ascii.ascii_dec c c); [done | congruence].
Qed.

Lemma str_in_refl (s : string) : str_in s s = true.
Proof.
  destruct s as [|c s]; [done|].
  change (str_in (String c s) (String c s))
    with (String.prefix (String c s) (String c s) || str_in (String c s) s).
  by rewrite prefix_refl.
Qed.

Lemma first_match_find (test : item -> result bool) (p : item -> bool) (l : list item) :
  Forall (fun it => test it = Ok (p it)) l ->
  first_match test l = Ok (List.find p l).
Proof.
  induction 1 as [|it l Hit _ IH]; simpl; [done|].
  rewrite Hit. by destruct (p it).
Qed.

Lemma find_first {A} (p : A -> bool) (before : list A) (x : A) (after : list A) :
  Forall (fun y => p y = false) before -> p x = true ->
  List.find p (before ++ x :: after) = Some x.
Proof.
  induction 1 as [|y before Hy _ IH]; simpl; intros Hx.
  - by rewrite Hx.
  - rewrite Hy. by apply IH.
Qed.

Lemma find_none_all {A} (p : A -> bool) (l : list A) :
  Forall (fun y => p y = false) l -> List.find p l = None.
Proof. induction 1 as [|y l Hy _ IH]; simpl; [done|]. by rewrite Hy. Qed.

Lemma feature_matches_shaped (name : string) (it : item) :
  governance_shaped it = true ->
  feature_matches name it = Ok (feature_has name it).
Proof.
  unfold governance_shaped, feature_matches, feature_has, get, get_or.
  destruct (dict_get it "feature") as [[]|]; simpl; try done.
  intros _. destruct (String.eqb_spec s name) as [->|]; simpl; [|done].
  by rewrite str_in_refl.
Qed.

Lemma display_name_matches_shaped (name : string) (it : item) :
  governance_shaped it = true ->
  display_name_matches name it = Ok (name_has name it).
Proof.
  unfold governance_shaped, display_name_matches, name_has, get_or.
  rewrite andb_true_iff. intros [_ H].
  destruct (dict_get it "display_name") as [[]|]; simpl in *; done.
Qed.

Lemma zone_matches_shaped (name : string) (it : item) :
  governance_shaped it = true ->
  zone_matches name it = Ok (feature_has name it || name_has name it).
Proof.
  intros H. unfold zone_matches. rewrite display_name_matches_shaped by done.
  unfold governance_shaped in H. apply andb_true_iff in H as [H _].
  unfold feature_has, get_or.
  destruct (dict_get it "feature") as [[]|]; simpl in *; try done;
    unfold or_else; by case_match.
Qed.

Lemma Forall_shaped (test : item -> result bool) (p : item -> bool) (l : list item) :
  (forall it, governance_shaped it = true -> test it = Ok (p it)) ->
  Forall (fun it => governance_shaped it = true) l ->
  Forall (fun it => test it = Ok (p it)) l.
Proof. intros H Hl. eapply Forall_impl; [exact Hl | exact H]. Qed.

(** The REST lookup on records of the stored shape: one pass for [feature],
    one pass for [display_name]. *)
Lemma get_governance_find (DATA : gmap string (list item)) (feature : string) :
  Forall (fun it => governance_shaped it = true) (governance DATA) ->
  get_governance feature DATA
  = (match List.find (feature_has (normalize feature)) (governance DATA) with
     | Some it => Ok it
     | None =>
         match List.find (name_has (normalize feature)) (governance DATA) with
         | Some it => Ok it
         | None => Raise (HTTPException 404 ("No governance info for: " +:+ feature))
         end
     end, DATA).
Proof.
  intros Hs. unfold get_governance, bind, data_get, lift. fold (governance DATA).
  rewrite (first_match_find _ (feature_has (normalize feature)))
    by (eapply Forall_shaped; [apply feature_matches_shaped | done]).
  destruct (List.find (feature_has _) _); [done|].
  rewrite (first_match_find _ (name_has (normalize feature)))
    by (eapply Forall_shaped; [apply display_name_matches_shaped | done]).
  by destruct (List.find (name_has _) _).
Qed.



Lemma find_some_elem {A} (p : A -> bool) (l : list A) (x : A) :
  List.find p l = Some x -> x ∈ l /\ p x = true.
Proof. intros H. apply find_some in H as [H1 H2]. by rewrite list_elem_of_In. Qed.

Lemma find_is_some {A} (p : A -> bool) (l : list A) (x : A) :
  x ∈ l -> p x = true -> exists y, List.find p l = Some y.
Proof.
  intros Hx Hp. destruct (List.find p l) as [y|] eqn:Hf; [by exists y|].
  apply list_elem_of_In in Hx. pose proof (find_none _ _ Hf x Hx). congruence.
Qed.

Lemma matching_record_nonempty (name : string) (it : item) :
  name <> "" ->
  feature_has name it || name_has name it = true ->
  nonempty (Some it) = Some it.
Proof.
  intros Hn. destruct it as [|kv it]; [|done].
  destruct name; [congruence | discriminate].
Qed.

Lemma get_governance_resource_find (DATA : gmap string (list item)) (feature : string) :
  get_governance_resource feature DATA
  = (match List.find (feature_is (normalize feature)) (governance DATA) with
     | Some it => format_governance_full it
     | None => Ok ("Governance info for '" +:+ feature +:+ "' not found.")
     end, DATA).
Proof.
  unfold get_governance_resource, bind, data_get, lift, ret.
  fold (governance DATA). unfold feature_is.
  by destruct (List.find _ _).
Qed.

Lemma check_governance_zone_find (DATA : gmap string (list item)) (feature : string) :
  Forall (fun it => governance_shaped it = true) (governance DATA) ->
  check_governance_zone feature DATA
  = (match nonempty (List.find (fun it => feature_has (normalize feature) it
                                          || name_has (normalize feature) it)
                       (governance DATA)) with
     | Some it =>
         rbind (format_governance_full it) (fun text =>
         rbind (subscript it "feature") (fun name =>
         Ok (text +:+ nl +:+ nl +:+ "Resource URI: governance://" +:+ str name)))
     | None => Ok ("No governance information found for '" +:+ feature +:+ "'.")
     end, DATA).
Proof.
  intros Hs. unfold check_governance_zone, bind, data_get, lift, ret.
  fold (governance DATA).
  rewrite (first_match_find _ (fun it => feature_has (normalize feature) it
                                         || name_has (normalize feature) it))
    by (eapply Forall_shaped; [apply zone_matches_shaped | done]).
  destruct (nonempty _) as [it|]; [|done].
  destruct (format_governance_full it); simpl; [|done].
  by destruct (subscript it "feature").
Qed.

(** C10.  The governance resource answers with the formatted record only
    for a record whose [feature] is the normalized name.  When no record has
    that [feature], it answers with the not-found sentence, also for a name
    that some record contains in its [feature] or in its [display_name]:
    for such a name the REST lookup returns a record and the tool
    [check_governance_zone] formats one. *)
Theorem governance_resource_exact_only (DATA : gmap string (list item)) (feature : string) :
  normalize feature <> "" ->
  Forall (fun it => governance_shaped it = true) (governance DATA) ->
  let name := normalize feature in
  let accepts it := feature_has name it || name_has name it in
  (forall before it after,
      governance DATA = before ++ it :: after ->
      Forall (fun x => feature_is name x = false) before ->
      feature_is name it = true ->
      get_governance_resource feature DATA = (format_governance_full it, DATA))
  /\ (Forall (fun x => feature_is name x = false) (governance DATA) ->
      get_governance_resource feature DATA
      = (Ok ("Governance info for '" +:+ feature +:+ "' not found."), DATA)
      /\ forall it,
           it ∈ governance DATA -> accepts it = true ->
           (exists it', it' ∈ governance DATA /\ accepts it' = true
                        /\ get_governance feature DATA = (Ok it', DATA))
           /\ (exists it', it' ∈ governance DATA /\ accepts it' = true
                 /\ check_governance_zone feature DATA
                    = (rbind (format_governance_full it') (fun text =>
                       rbind (subscript it' "feature") (fun f =>
                       Ok (text +:+ nl +:+ nl +:+ "Resource URI: governance://"
                             +:+ str f))), DATA))).
Proof.
  intros Hne Hs name accepts.
  rewrite get_governance_resource_find. fold name. split.
  - intros before it after -> Hb Hit. by rewrite find_first.
  - intros Hnone. rewrite find_none_all by done. split; [done|].
    intros it Hin Hacc. split.
    + rewrite get_governance_find by done. fold name.
      destruct (List.find (feature_has name) (governance DATA)) as [it'|] eqn:Hf.
      * apply find_some_elem in Hf as [Hin' Hf].
        exists it'. split; [done|]. split; [|done]. unfold accepts. by rewrite Hf.
      * assert (name_has name it = true) as Hname.
        { apply list_elem_of_In in Hin. pose proof (find_none _ _ Hf it Hin) as Hno.
          unfold accepts in Hacc. rewrite Hno in Hacc. done. }
        destruct (find_is_some (name_has name) _ it Hin Hname) as [it' Hf'].
        rewrite Hf'. apply find_some_elem in Hf' as [Hin' Hf'].
        exists it'. split; [done|]. split; [|done].
        unfold accepts. rewrite Hf'. apply orb_true_r.
    + rewrite check_governance_zone_find by done. fold name. fold accepts.
      destruct (find_is_some accepts _ it Hin Hacc) as [it' Hf'].
      rewrite Hf'. apply find_some_elem in Hf' as [Hin' Hf'].
      exists it'. split; [done|]. split; [done|].
      by rewrite (matching_record_nonempty name).
Qed.

(** ** Listings *)

Lemma search_if_given_some (q : string) (fields : list string) (items : list item) :
  q <> "" ->
  search_if_given (Some q) fields items = search_items items q fields.
Proof. intros Hq. unfold search_if_given, given. by rewrite eqb_empty_false. Qed.

Lemma search_items_length (items : list item) (q : string) (fields : list string) :
  q <> "" ->
  length (search_items items q fields) = 10 `min` length (matching q fields items).
Proof.
  intros Hq. rewrite search_items_nonempty by done.
  rewrite length_take, length_map.
  rewrite (Permutation_length (sort_desc_perm _)). by rewrite length_map.
Qed.

(** What the three searching list endpoints report with a query: the count
    of the answer of [search_items], which is already cut to ten. *)
Lemma list_total_with_query (DATA : gmap string (list item)) (q : string)
    (category difficulty language : option string) :
  q <> "" ->
  (exists l, fst (list_best_practices (Some q) category difficulty DATA) = Ok l
             /\ total l <= 10 /\ length (results l) = total l)
  /\ (exists l, fst (list_snippets (Some q) language DATA) = Ok l
                /\ total l <= 10 /\ length (results l) = total l)
  /\ (exists l, fst (list_troubleshooting (Some q) category DATA) = Ok l
                /\ total l <= 10 /\ length (results l) = total l).
Proof.
  intros Hq.
  unfold list_best_practices, list_snippets, list_troubleshooting, bind, data_get, ret.
  simpl. rewrite !search_if_given_some by done.
  repeat split; eexists; (split; [reflexivity|]); simpl;
    rewrite ?length_take, search_items_length by done; lia.
Qed.

(** C1, at the input where the code departs from it.  Eleven stored best
    practices match the query and no filter is given; the endpoint reports a
    [total] of 10, not 11, with the first ten records as [results]. *)
Theorem list_best_practices_total_capped :
  length (matching "error" ["title"; "description"; "tags"; "rationale"]
            (filter_field "difficulty" None
               (filter_field "category" None eleven_practices))) = 11
  /\ fst (list_best_practices (Some "error") None None eleven_store)
     = Ok {| results := take 10 eleven_practices; total := 10 |}.
Proof. split; vm_compute; reflexivity. Qed.

(** Without a query the same endpoint reports the count before the cut. *)
Lemma list_best_practices_total_uncapped :
  fst (list_best_practices None None None eleven_store)
  = Ok {| results := take 10 eleven_practices; total := 11 |}.
Proof. vm_compute; reflexivity. Qed.

(** C8.  On the snippets listing and on the snippet tool, the language
    filter [any] gives the answer of a call without a language filter, for
    every query and every store; no record is selected or dropped for having
    or lacking the language value [any]. *)
Theorem snippets_language_any (DATA : gmap string (list item)) (q : option string)
    (query : string) :
  list_snippets q (Some "any") DATA = list_snippets q None DATA
  /\ get_code_snippet query (Some "any") DATA = get_code_snippet query None DATA
  /\ fst (list_snippets None (Some "any") DATA)
     = Ok {| results := take 10 (default [] (DATA !! "snippets"));
             total := length (default [] (DATA !! "snippets")) |}.
Proof. repeat split. Qed.

(** ** Access control *)

Lemma auth_preflight_forwarded : ~ rejects_all_but_health ∅ preflight.
Proof.
  intros H. unfold rejects_all_but_health in H.
  assert (auth_middleware ∅ preflight = rejection) as Hr.
  { apply H; [discriminate | exact I]. }
  vm_compute in Hr. discriminate.
Qed.

Lemma auth_mcp_probe_answered :
  auth_middleware ∅ {| path := "/mcp"; method := "GET"; headers := [] |}
  = JSONResponse 200 [ ("status", VStr "ok");
                       ("server", VStr "MCS Best Practices MCP");
                       ("protocol", VStr "mcp-streamable-1.0") ].
Proof. reflexivity. Qed.

(** C4, as amended.  A request whose key header is missing or not in the
    allow-list is answered with status 401 and the fixed body, and is not
    passed on, unless its path is the health probe, its method is OPTIONS, or
    it is a GET on a path that starts with /mcp. *)
Theorem auth_middleware_rejects (API_KEYS : gset string) (r : request) :
  path r <> "/health" ->
  method r <> "OPTIONS" ->
  ~ (startswith (path r) "/mcp" = true /\ method r = "GET") ->
  unauthorized API_KEYS r ->
  auth_middleware API_KEYS r = rejection
  /\ forall r', auth_middleware API_KEYS r <> CallNext r'.
Proof.
  intros Hp Hm Hmcp Hun.
  assert (auth_middleware API_KEYS r = rejection) as Hr.
  { unfold auth_middleware.
    rewrite (proj2 (String.eqb_neq _ _) Hp), (proj2 (String.eqb_neq _ _) Hm). simpl.
    destruct (startswith (path r) "/mcp" && String.eqb (method r) "GET") eqn:Hg.
    - apply andb_true_iff in Hg as [H1 H2]. apply String.eqb_eq in H2. tauto.
    - unfold unauthorized in Hun.
      destruct (headers_get (headers r) "X-API-Key") as [key|]; simpl; [|done].
      rewrite (bool_decide_eq_false_2 _ Hun). by rewrite orb_true_r. }
  split; [done|]. intros r'. rewrite Hr. discriminate.
Qed.

(** ** The store is only read *)

Lemma read_only_ret {A} (a : A) : read_only (ret a).
Proof. done. Qed.

Lemma read_only_raise {A} (e : exn) : read_only (@raise A e).
Proof. done. Qed.

Lemma read_only_lift {A} (r : result A) : read_only (lift r).
Proof. done. Qed.

Lemma read_only_data_get (key : string) : read_only (data_get key).
Proof. done. Qed.

Lemma read_only_data_loaded : read_only data_loaded.
Proof. done. Qed.

Lemma read_only_bind {A B} (m : M A) (k : A -> M B) :
  read_only m -> (forall a, read_only (k a)) -> read_only (bind m k).
Proof.
  intros Hm Hk DATA. unfold bind. specialize (Hm DATA).
  destruct (m DATA) as [[a|e] DATA']; simpl in *; subst; [apply Hk | done].
Qed.

Lemma read_only_fmap {A B} (f : A -> B) (m : M A) :
  read_only m -> read_only (fmap_M f m).
Proof. intros Hm. apply read_only_bind; [done | intros; apply read_only_ret]. Qed.

Create HintDb read_only.
#[local] Hint Resolve read_only_ret read_only_raise read_only_lift read_only_data_get
  read_only_data_loaded read_only_fmap : read_only.

(** Walks a handler: binds are opened, branches are split, and the leaves
    are the primitive reads above. *)
Ltac read_only_walk :=
  repeat first
    [ progress auto with read_only
    | apply read_only_bind; [| intros ?]
    | match goal with
      | |- read_only (match ?x with _ => _ end) => destruct x
      | |- read_only (let _ := _ in _) => cbv zeta
      end ].

Lemma read_only_get_or_404 (found : option item) : read_only (get_or_404 found).
Proof. unfold get_or_404. read_only_walk. Qed.

Lemma read_only_format_or (format : item -> result string) (missing : string)
    (found : option item) :
  read_only (format_or format missing found).
Proof. unfold format_or. read_only_walk. Qed.

#[local] Hint Resolve read_only_get_or_404 read_only_format_or : read_only.

Lemma serve_read_only (c : call) : read_only (serve c).
Proof.
  destruct c; simpl; apply read_only_fmap;
    [ unfold health
    | unfold list_best_practices
    | unfold get_best_practice
    | unfold list_snippets
    | unfold get_snippet
    | unfold list_troubleshooting
    | unfold get_troubleshooting_by_id
    | unfold list_tips
    | unfold get_governance
    | unfold search_best_practices
    | unfold get_code_snippet
    | unfold troubleshoot_issue
    | unfold get_tips_for_feature
    | unfold check_governance_zone
    | unfold get_best_practice_resource
    | unfold get_snippet_resource
    | unfold get_troubleshooting_resource
    | unfold get_tip_resource
    | unfold get_governance_resource ];
    read_only_walk.
Qed.

Lemma serve_all_read_only (calls : list call) (DATA : gmap string (list item)) :
  serve_all calls DATA = (map (fun c => fst (serve c DATA)) calls, DATA).
Proof.
  induction calls as [|c calls IH]; simpl; [done|].
  pose proof (serve_read_only c DATA) as Hc.
  destruct (serve c DATA) as [r DATA']. simpl in Hc. subst DATA'.
  by rewrite IH.
Qed.

Lemma lifespan_loads (files DATA : gmap string (list item)) :
  snd (lifespan files DATA)
  = <["governance" := load_json files "governance.json"]>
      (<["tips" := load_json files "tips.json"]>
         (<["troubleshooting" := load_json files "troubleshooting.json"]>
            (<["snippets" := load_json files "snippets.json"]>
               (<["best_practices" := load_json files "best_practices.json"]> DATA)))).
Proof. reflexivity. Qed.

(** C9.  After startup, whatever sequence of REST, tool and resource calls
    is served, the store is the one that startup left: each of the five
    collections is still the list loaded from its file.  Every call of the
    sequence gets the reply that it gets against the startup store, so a
    repeated call gets the same reply. *)
Theorem store_unchanged (files DATA0 : gmap string (list item)) (calls : list call) :
  let started := snd (lifespan files DATA0) in
  snd (serve_all calls started) = started
  /\ fst (serve_all calls started) = map (fun c => fst (serve c started)) calls
  /\ snd (serve_all calls started) !! "best_practices"
     = Some (load_json files "best_practices.json")
  /\ snd (serve_all calls started) !! "snippets"
     = Some (load_json files "snippets.json")
  /\ snd (serve_all calls started) !! "troubleshooting"
     = Some (load_json files "troubleshooting.json")
  /\ snd (serve_all calls started) !! "tips" = Some (load_json files "tips.json")
  /\ snd (serve_all calls started) !! "governance"
     = Some (load_json files "governance.json").
Proof.
  intros started. rewrite serve_all_read_only. simpl fst. simpl snd.
  split; [done|]. split; [done|].
  unfold started. rewrite lifespan_loads.
  repeat split; by simplify_map_eq.
Qed.

(** ** Formatters *)

Lemma format_best_practice_needs_description :
  format_best_practice_full [("id", VStr "bp-1"); ("title", VStr "Error handling")]
  = Raise (KeyError "description")
  /\ ~ never_raises format_best_practice_full.
Proof.
  split; [reflexivity|].
  intros H. destruct (H [("id", VStr "bp-1"); ("title", VStr "Error handling")])
    as [text Ht].
  discriminate.
Qed.

Lemma str_get_or (d : list (string * value)) (key dflt : string) :
  str (get_or d key (VStr dflt)) = shown d key dflt.
Proof. unfold get_or, shown. by destruct (dict_get d key). Qed.

Lemma all_strings_texts_of (l : list value) :
  forallb is_text l = true -> all_strings l = Ok (texts_of l).
Proof.
  induction l as [|v l IH]; simpl; [done|].
  intros [Hv Hl]%andb_true_iff. destruct v; try done.
  by rewrite (IH Hl).
Qed.

Lemma join_value_joined (d : list (string * value)) (key sep : string) :
  texts_or_absent (dict_get d key) = true ->
  join_value sep (get_or d key (VList [])) = Ok (joined d key sep).
Proof.
  unfold texts_or_absent, join_value, get_or, joined.
  destruct (dict_get d key) as [[]|]; simpl; try done.
  intros H. by rewrite (all_strings_texts_of _ H).
Qed.

Lemma bullet_section_bullets (it : item) (key heading : string) (lines : list string) :
  list_or_absent (dict_get it key) = true ->
  bullet_section it key heading lines = Ok (lines ++ bullets it key heading).
Proof.
  unfold list_or_absent, bullet_section, bullets, get.
  destruct (dict_get it key) as [[]|]; simpl; try done;
    [|by rewrite app_nil_r].
  intros _. destruct l; simpl; [by rewrite app_nil_r | done].
Qed.

Lemma subscript_shown (d : list (string * value)) (key : string) :
  has_key d key = true -> subscript d key = Ok (default VNone (dict_get d key))
  /\ forall dflt, shown d key dflt = str (default VNone (dict_get d key)).
Proof.
  unfold has_key, subscript, shown. by destruct (dict_get d key).
Qed.

Lemma step_lines_text (lines : list string) (step : value) :
  step_shaped step = true -> step_lines lines step = Ok (lines ++ step_text step).
Proof.
  unfold step_shaped, step_lines, step_text. destruct step; try done.
  intros [[H1 H2]%andb_true_iff H3]%andb_true_iff. simpl.
  destruct (subscript_shown _ _ H1) as [-> E1].
  destruct (subscript_shown _ _ H2) as [-> E2].
  destruct (subscript_shown _ _ H3) as [-> E3].
  simpl. by rewrite E1, E2, E3.
Qed.

Lemma steps_loop_text (steps : list value) (lines : list string) :
  forallb step_shaped steps = true ->
  for_each steps step_lines lines = Ok (lines ++ concat (map step_text steps)).
Proof.
  revert lines. induction steps as [|step steps IH]; intros lines; simpl.
  - by rewrite app_nil_r.
  - intros [Hs Hl]%andb_true_iff. rewrite (step_lines_text lines step Hs). simpl.
    rewrite IH by done. by rewrite <- app_assoc.
Qed.

Lemma steps_section_text (it : item) (lines : list string) :
  steps_or_absent (dict_get it "steps") = true ->
  steps_section it lines = Ok (lines ++ steps_text it).
Proof.
  unfold steps_or_absent, steps_section, steps_text, get.
  destruct (dict_get it "steps") as [[]|]; simpl; try done;
    [|by rewrite app_nil_r].
  intros H. destruct l as [|step l]; [by rewrite app_nil_r|].
  cbn [iterate rbind]. rewrite steps_loop_text by done. by rewrite <- app_assoc.
Qed.

Lemma optional_line_get (d : list (string * value)) (key label : string)
    (lines : list string) :
  (if truthy (get d key) then lines ++ [label +:+ str (get d key)] else lines)
  = lines ++ optional_line d key label.
Proof.
  unfold optional_line, get. destruct (dict_get d key) as [v|]; simpl.
  - destruct (truthy v); [done | by rewrite app_nil_r].
  - by rewrite app_nil_r.
Qed.

Lemma zone_lines_text (lines : list string) (entry : string * value) :
  zone_shaped entry = true -> zone_lines lines entry = Ok (lines ++ zone_text entry).
Proof.
  destruct entry as [zone info]. unfold zone_shaped, zone_lines, zone_text. simpl.
  destruct info as [| | | | |info]; try done.
  intros H. rewrite optional_line_get.
  assert ((if truthy (get info "available") then "Available" else "Not available")
          = match dict_get info "available" with
            | Some v => if truthy v then "Available" else "Not available"
            | None => "Not available"
            end) as -> by (unfold get; by destruct (dict_get info "available")).
  unfold get, texts_or_absent in *.
  destruct (dict_get info "requirements") as [[]|]; simpl in *; try done;
    try by rewrite <- !app_assoc, ?app_nil_r.
  destruct l as [|x l]; simpl; [by rewrite <- !app_assoc, ?app_nil_r|].
  unfold join_value. cbn [iterate rbind].
  rewrite (all_strings_texts_of _ H). simpl. by rewrite <- !app_assoc.
Qed.

Lemma zones_loop_text (zones : list (string * value)) (lines : list string) :
  forallb zone_shaped zones = true ->
  for_each zones zone_lines lines = Ok (lines ++ concat (map zone_text zones)).
Proof.
  revert lines. induction zones as [|z zones IH]; intros lines; simpl.
  - by rewrite app_nil_r.
  - intros [Hz Hl]%andb_true_iff. rewrite (zone_lines_text lines z Hz). simpl.
    rewrite IH by done. by rewrite <- app_assoc.
Qed.

Lemma format_best_practice_text (it : item) (title description : value) :
  dict_get it "title" = Some title ->
  dict_get it "description" = Some description ->
  texts_or_absent (dict_get it "tags") = true ->
  format_best_practice_full it
  = Ok (join nl [ "# " +:+ str title;
                  nl +:+ "**Category**: " +:+ shown it "category" "N/A";
                  "**Difficulty**: " +:+ shown it "difficulty" "N/A";
                  nl +:+ "**Description**: " +:+ str description;
                  nl +:+ "**Rationale**: " +:+ shown it "rationale" "";
                  nl +:+ "**Good example**: " +:+ shown it "example_good" "";
                  "**Bad example**: " +:+ shown it "example_bad" "";
                  nl +:+ "**Tags**: " +:+ joined it "tags" ", " ]).
Proof.
  intros Ht Hd Htags. unfold format_best_practice_full, subscript.
  rewrite Ht, Hd. cbn [rbind]. rewrite (join_value_joined it "tags" ", " Htags).
  cbn [rbind]. by rewrite !str_get_or.
Qed.

Lemma format_snippet_text (it : item) (title : value) :
  dict_get it "title" = Some title ->
  texts_or_absent (dict_get it "tags") = true ->
  format_snippet_full it
  = Ok (join nl [ "# " +:+ str title;
                  nl +:+ "**Language**: " +:+ shown it "language" "unknown";
                  "**Use case**: " +:+ shown it "use_case" "";
                  nl +:+ "```" +:+ shown it "language" "" +:+ nl
                     +:+ shown it "code" "" +:+ nl +:+ "```";
                  nl +:+ "**Explanation**: " +:+ shown it "explanation" "";
                  nl +:+ "**Tags**: " +:+ joined it "tags" ", " ]).
Proof.
  intros Ht Htags. unfold format_snippet_full, subscript.
  rewrite Ht. cbn [rbind]. rewrite (join_value_joined it "tags" ", " Htags).
  cbn [rbind]. by rewrite !str_get_or.
Qed.

Lemma format_troubleshooting_text (it : item) (title : value) :
  dict_get it "title" = Some title ->
  list_or_absent (dict_get it "symptoms") = true ->
  list_or_absent (dict_get it "causes") = true ->
  steps_or_absent (dict_get it "steps") = true ->
  format_troubleshooting_full it
  = Ok (join nl (("# " +:+ str title)
                 :: bullets it "symptoms" (nl +:+ "**Symptoms**:")
                 ++ bullets it "causes" (nl +:+ "**Possible causes**:")
                 ++ steps_text it)).
Proof.
  intros Ht Hs Hc Hsteps.
  unfold format_troubleshooting_full, troubleshooting_lines, subscript.
  rewrite Ht. cbn [rbind].
  rewrite bullet_section_bullets by done. cbn [rbind].
  rewrite bullet_section_bullets by done. cbn [rbind].
  rewrite steps_section_text by done. cbn [rbind].
  by rewrite <- !app_assoc.
Qed.

Lemma format_tip_text (it : item) (title : value) :
  dict_get it "title" = Some title ->
  texts_or_absent (dict_get it "tags") = true ->
  format_tip_full it
  = Ok (join nl ([ "# " +:+ str title; nl +:+ shown it "tip" "" ]
                 ++ optional_line it "why_it_matters" (nl +:+ "*Why it matters*: ")
                 ++ [nl +:+ "**Tags**: " +:+ joined it "tags" ", "])).
Proof.
  intros Ht Htags. unfold format_tip_full, subscript.
  rewrite Ht. cbn [rbind]. rewrite (join_value_joined it "tags" ", " Htags).
  cbn [rbind]. cbv zeta.
  rewrite (optional_line_get it "why_it_matters" (nl +:+ "*Why it matters*: ")).
  rewrite str_get_or. by rewrite <- !app_assoc.
Qed.

Lemma format_governance_text (it : item) :
  zones_or_absent (dict_get it "zones") = true ->
  format_governance_full it
  = Ok (join nl ([ "# " +:+ governance_heading it;
                   nl +:+ "**Minimum zone required**: "
                      +:+ shown it "minimum_zone" "unknown";
                   nl +:+ "**Availability by zone**:" ]
                 ++ zones_text it
                 ++ optional_line it "justification_template"
                      (nl +:+ "**Justification template**:" +:+ nl +:+ "> "))).
Proof.
  intros Hz. unfold format_governance_full. cbv zeta.
  assert (str (get_or it "display_name" (get it "feature")) = governance_heading it)
    as ->.
  { unfold governance_heading, get_or, get, shown.
    destruct (dict_get it "display_name"); [done|]. simpl.
    by destruct (dict_get it "feature"). }
  rewrite str_get_or.
  assert (forall lines,
            (if truthy (get it "justification_template")
             then lines ++ [nl +:+ "**Justification template**:" +:+ nl +:+ "> "
                               +:+ str (get it "justification_template")]
             else lines)
            = lines ++ optional_line it "justification_template"
                         (nl +:+ "**Justification template**:" +:+ nl +:+ "> "))
    as Hline.
  { intros lines. rewrite <- optional_line_get. reflexivity. }
  unfold zones_or_absent, zones_text, get_or in *.
  destruct (dict_get it "zones") as [[]|]; try done.
  - cbn [default from_option id]. rewrite zones_loop_text by done. cbn [rbind].
    rewrite Hline. by rewrite <- !app_assoc.
  - cbn [default from_option id for_each rbind]. by rewrite Hline.
Qed.

(** C3, as amended.  Each formatter returns a text block, and raises
    nothing, for every record that has the fields the formatter subscripts
    (the title; for a best practice also the description; for each resolution
    step its number, action and details) and whose list fields have the
    stored shape; the governance formatter needs no field at all.  The text
    is given line by line: every field that the record has is printed by its
    value, every absent optional field by its default (N/A, unknown, or the
    empty string), and an absent or empty optional section is left out. *)
Theorem formatters_return_on_stored_shape :
  (forall it title description,
      dict_get it "title" = Some title ->
      dict_get it "description" = Some description ->
      texts_or_absent (dict_get it "tags") = true ->
      format_best_practice_full it
      = Ok (join nl [ "# " +:+ str title;
                      nl +:+ "**Category**: " +:+ shown it "category" "N/A";
                      "**Difficulty**: " +:+ shown it "difficulty" "N/A";
                      nl +:+ "**Description**: " +:+ str description;
                      nl +:+ "**Rationale**: " +:+ shown it "rationale" "";
                      nl +:+ "**Good example**: " +:+ shown it "example_good" "";
                      "**Bad example**: " +:+ shown it "example_bad" "";
                      nl +:+ "**Tags**: " +:+ joined it "tags" ", " ]))
  /\ (forall it title,
      dict_get it "title" = Some title ->
      texts_or_absent (dict_get it "tags") = true ->
      format_snippet_full it
      = Ok (join nl [ "# " +:+ str title;
                      nl +:+ "**Language**: " +:+ shown it "language" "unknown";
                      "**Use case**: " +:+ shown it "use_case" "";
                      nl +:+ "```" +:+ shown it "language" "" +:+ nl
                         +:+ shown it "code" "" +:+ nl +:+ "```";
                      nl +:+ "**Explanation**: " +:+ shown it "explanation" "";
                      nl +:+ "**Tags**: " +:+ joined it "tags" ", " ]))
  /\ (forall it title,
      dict_get it "title" = Some title ->
      list_or_absent (dict_get it "symptoms") = true ->
      list_or_absent (dict_get it "causes") = true ->
      steps_or_absent (dict_get it "steps") = true ->
      format_troubleshooting_full it
      = Ok (join nl (("# " +:+ str title)
                     :: bullets it "symptoms" (nl +:+ "**Symptoms**:")
                     ++ bullets it "causes" (nl +:+ "**Possible causes**:")
                     ++ steps_text it)))
  /\ (forall it title,
      dict_get it "title" = Some title ->
      texts_or_absent (dict_get it "tags") = true ->
      format_tip_full it
      = Ok (join nl ([ "# " +:+ str title; nl +:+ shown it "tip" "" ]
                     ++ optional_line it "why_it_matters" (nl +:+ "*Why it matters*: ")
                     ++ [nl +:+ "**Tags**: " +:+ joined it "tags" ", "])))
  /\ (forall it,
      zones_or_absent (dict_get it "zones") = true ->
      format_governance_full it
      = Ok (join nl ([ "# " +:+ governance_heading it;
                       nl +:+ "**Minimum zone required**: "
                          +:+ shown it "minimum_zone" "unknown";
                       nl +:+ "**Availability by zone**:" ]
                     ++ zones_text it
                     ++ optional_line it "justification_template"
                          (nl +:+ "**Justification template**:" +:+ nl +:+ "> "))))
  /\ (forall d key,
      dict_get d key = None ->
      (forall dflt, shown d key dflt = dflt)
      /\ (forall sep, joined d key sep = "")
      /\ (forall heading, bullets d key heading = [])
      /\ (forall label, optional_line d key label = []))
  /\ (forall d, dict_get d "steps" = None -> steps_text d = [])
  /\ (forall d, dict_get d "zones" = None -> zones_text d = [])
  /\ (forall title description : string,
      format_best_practice_full
        [("title", VStr title); ("description", VStr description)]
      = Ok (join nl [ "# " +:+ title;
                      nl +:+ "**Category**: N/A";
                      "**Difficulty**: N/A";
                      nl +:+ "**Description**: " +:+ description;
                      nl +:+ "**Rationale**: ";
                      nl +:+ "**Good example**: ";
                      "**Bad example**: ";
                      nl +:+ "**Tags**: " ]))
  /\ (forall title : string,
      format_snippet_full [("title", VStr title)]
      = Ok (join nl [ "# " +:+ title;
                      nl +:+ "**Language**: unknown";
                      "**Use case**: ";
                      nl +:+ "```" +:+ nl +:+ nl +:+ "```";
                      nl +:+ "**Explanation**: ";
                      nl +:+ "**Tags**: " ]))
  /\ (forall title : string,
      format_troubleshooting_full [("title", VStr title)] = Ok ("# " +:+ title))
  /\ (forall title : string,
      format_tip_full [("title", VStr title)]
      = Ok (join nl [ "# " +:+ title; nl; nl +:+ "**Tags**: " ]))
  /\ (forall feature : string,
      format_governance_full [("feature", VStr feature)]
      = Ok (join nl [ "# " +:+ feature;
                      nl +:+ "**Minimum zone required**: unknown";
                      nl +:+ "**Availability by zone**:" ])).
Proof.
  split; [exact format_best_practice_text|].
  split; [exact format_snippet_text|].
  split; [exact format_troubleshooting_text|].
  split; [exact format_tip_text|].
  split; [exact format_governance_text|].
  split.
  { intros d key Hnone. unfold shown, joined, bullets, optional_line.
    rewrite Hnone. by repeat split. }
  split; [by intros d Hd; unfold steps_text; rewrite Hd|].
  split; [by intros d Hd; unfold zones_text; rewrite Hd|].
  repeat split.
Qed.

(** ** The theorems at sample inputs *)

Lemma search_items_ranked_witness :
  "error" <> ""
  /\ length (search_items eleven_practices "error" ["title"; "description"]) <= 10.
Proof.
  assert ("error" <> "") as Hq by discriminate.
  split; [exact Hq|].
  destruct (search_items_ranked eleven_practices "error" ["title"; "description"] Hq)
    as (ranked & _ & _ & _ & _ & Hlen).
  exact Hlen.
Defined.


Lemma formatters_return_witness :
  format_best_practice_full bare_practice
  = Ok (join nl [ "# Error handling";
                  nl +:+ "**Category**: N/A";
                  "**Difficulty**: N/A";
                  nl +:+ "**Description**: Handle errors";
                  nl +:+ "**Rationale**: ";
                  nl +:+ "**Good example**: ";
                  "**Bad example**: ";
                  nl +:+ "**Tags**: " ])
  /\ format_troubleshooting_full guide
     = Ok (join nl [ "# Connector returns 403";
                     nl +:+ "**Symptoms**:";
                     "- 403 in the test pane";
                     nl +:+ "**Resolution steps**:";
                     nl +:+ "**Step 1**: Check the key";
                     "  Open the connection settings" ]).
Proof.
  split.
  - apply (proj1 formatters_return_on_stored_shape bare_practice
             (VStr "Error handling") (VStr "Handle errors")); reflexivity.
  - apply (proj1 (proj2 (proj2 formatters_return_on_stored_shape)) guide
             (VStr "Connector returns 403")); reflexivity.
Defined.

Lemma auth_middleware_rejects_witness :
  unauthorized {["mcs-bootcamp-2025"]} wrong_key_get
  /\ auth_middleware {["mcs-bootcamp-2025"]} wrong_key_get = rejection.
Proof.
  assert (unauthorized {["mcs-bootcamp-2025"]} wrong_key_get) as Hun.
  { apply (bool_decide_eq_false_1 ("wrong" ∈ ({["mcs-bootcamp-2025"]} : gset string))).
    vm_compute. reflexivity. }
  split; [exact Hun|].
  apply (auth_middleware_rejects {["mcs-bootcamp-2025"]} wrong_key_get);
    [discriminate | discriminate | intros [H _]; discriminate H | exact Hun].
Defined.

Lemma governance_resource_exact_only_witness :
  normalize "Servers" <> ""
  /\ get_governance_resource "Servers" mcp_governance
     = (Ok "Governance info for 'Servers' not found.", mcp_governance).
Proof.
  assert (normalize "Servers" <> "") as Hne by discriminate.
  split; [exact Hne|].
  destruct (governance_resource_exact_only mcp_governance "Servers" Hne) as [_ H].
  - vm_compute. repeat constructor.
  - destruct H as [H _]; [vm_compute; repeat constructor | exact H].
Defined.

(** The name that the resource refuses is accepted by the REST lookup and by
    the tool. *)
Example servers_accepted_elsewhere :
  fst (get_governance "Servers" mcp_governance)
  = Ok [("feature", VStr "mcp-servers"); ("display_name", VStr "MCP Servers")]
  /\ fst (check_governance_zone "Servers" mcp_governance)
     = Ok (join nl [ "# MCP Servers";
                     nl +:+ "**Minimum zone required**: unknown";
                     nl +:+ "**Availability by zone**:";
                     "";
                     "Resource URI: governance://mcp-servers" ]).
Proof. split; vm_compute; reflexivity. Qed.

(** Identifiers compare with case. *)
Example find_by_id_case :
  find_by_id [bare_practice] "bp-1" = Some bare_practice
  /\ find_by_id [bare_practice] "BP-1" = None.
Proof. split; reflexivity. Qed.

(** A record that matches two queried fields is ranked before an earlier
    record that matches one; the two records of equal score keep their
    order. *)
Example search_items_ranks :
  search_items
    [ [("title", VStr "Variables"); ("description", VStr "Avoid errors")];
      [("title", VStr "Error handling"); ("description", VStr "Handle errors")];
      [("title", VStr "Retry on ERROR"); ("tags", VList [VStr "http"])];
      [("title", VStr "Topics")] ]
    "Error" ["title"; "description"; "tags"]
  = [ [("title", VStr "Error handling"); ("description", VStr "Handle errors")];
      [("title", VStr "Variables"); ("description", VStr "Avoid errors")];
      [("title", VStr "Retry on ERROR"); ("tags", VList [VStr "http"])] ].
Proof. vm_compute. reflexivity. Qed.

(** A listing with the language [any] keeps every snippet; a listing with
    another language keeps the snippets of that language. *)
Example language_any_is_no_literal :
  let snippets : gmap string (list item) :=
    {[ "snippets" := [ [("id", VStr "s1"); ("language", VStr "any")];
                       [("id", VStr "s2"); ("language", VStr "yaml")] ] ]} in
  fst (list_snippets None (Some "any") snippets)
  = Ok {| results := [ [("id", VStr "s1"); ("language", VStr "any")];
                       [("id", VStr "s2"); ("language", VStr "yaml")] ];
          total := 2 |}
  /\ fst (list_snippets None (Some "yaml") snippets)
     = Ok {| results := [ [("id", VStr "s2"); ("language", VStr "yaml")] ];
             total := 1 |}.
Proof. split; vm_compute; reflexivity. Qed.

(** * Further properties of the lookup engine and of the listings *)

Lemma filter_sublist {A} (p : A -> bool) (l : list A) : List.filter p l `sublist_of` l.
Proof.
  induction l as [|x l IH]; simpl; [constructor|].
  destruct (p x); by constructor.
Qed.

Lemma filter_elem_of {A} (p : A -> bool) (l : list A) (x : A) :
  x ∈ List.filter p l <-> x ∈ l /\ p x = true.
Proof. rewrite !list_elem_of_In. apply filter_In. Qed.

Lemma ranked_perm (score : item -> nat) (l : list item) :
  map snd (sort_desc (map (fun it => (score it, it)) l)) ≡ₚ l.
Proof. rewrite sort_desc_perm. by rewrite map_snd_scored. Qed.

Lemma ranked_sorted (score : item -> nat) (l : list item) :
  StronglySorted (by_score_desc score)
    (map snd (sort_desc (map (fun it => (score it, it)) l))).
Proof.
  apply scored_sorted_snd; [apply scored_sort, scored_map | apply sort_desc_sorted].
Qed.

Lemma lower_empty_iff (s : string) : lower s = "" <-> s = "".
Proof. destruct s; simpl; split; done. Qed.

Lemma search_items_submseteq (items : list item) (query : string) (fields : list string) :
  search_items items query fields ⊆+ items.
Proof.
  destruct (decide (query = "")) as [->|Hq].
  - apply sublist_submseteq, sublist_take.
  - rewrite search_items_nonempty by done.
    etrans; [apply sublist_submseteq, sublist_take|].
    rewrite ranked_perm. apply sublist_submseteq, filter_sublist.
Qed.

(** X1.  Whatever the query, [search_items] answers with stored records
    only: the answer is a rearranged selection of the collection, so a record
    occurs in it at most as often as it is stored. *)
Theorem search_items_returns_stored (items : list item) (query : string)
    (fields : list string) :
  search_items items query fields ⊆+ items
  /\ (forall it, it ∈ search_items items query fields -> it ∈ items)
  /\ (NoDup items -> NoDup (search_items items query fields)).
Proof.
  pose proof (search_items_submseteq items query fields) as H.
  split; [done|]. split.
  - intros it Hit. by eapply elem_of_submseteq.
  - intros Hnd. apply submseteq_Permutation in H as [rest Hp].
    rewrite Hp in Hnd. by apply NoDup_app in Hnd as [Hnd _].
Qed.

(** X2.  Only the lowercased query matters: two queries that differ in the
    case of their letters get the same answer. *)
Theorem search_items_query_case (items : list item) (q1 q2 : string)
    (fields : list string) :
  lower q1 = lower q2 ->
  search_items items q1 fields = search_items items q2 fields.
Proof.
  intros Hl. destruct (decide (q1 = "")) as [->|H1].
  - assert (q2 = "") as -> by (by apply lower_empty_iff).
    done.
  - assert (q2 <> "") as H2.
    { intros ->. by apply H1, lower_empty_iff. }
    rewrite !search_items_nonempty by done. by rewrite Hl.
Qed.

(** X3.  With a non-empty query, the first record of the answer has the
    highest score of the whole collection. *)
Theorem search_items_best_first (items : list item) (query : string)
    (fields : list string) (best : item) (others : list item) :
  query <> "" ->
  search_items items query fields = best :: others ->
  forall it, it ∈ items ->
    spec_score (lower query) fields it <= spec_score (lower query) fields best.
Proof.
  intros Hq Hs it Hit. rewrite search_items_nonempty in Hs by done.
  set (score := spec_score (lower query) fields) in *.
  set (kept := List.filter (fun it => (0 <? score it)%nat) items) in *.
  pose proof (ranked_sorted score kept) as Hsorted.
  pose proof (ranked_perm score kept) as Hperm.
  destruct (map snd (sort_desc (map (fun it => (score it, it)) kept)))
    as [|first ranked] eqn:Hr; [done|].
  simpl in Hs. injection Hs as -> _.
  destruct (Nat.ltb_spec 0 (score it)) as [Hpos|Hzero]; [|lia].
  assert (it ∈ best :: ranked) as Hin.
  { rewrite Hperm. apply filter_elem_of. split; [done|]. by apply Nat.ltb_lt. }
  apply StronglySorted_inv in Hsorted as [_ Hall].
  apply elem_of_cons in Hin as [->|Hin]; [done|].
  rewrite Forall_forall in Hall. by apply Hall.
Qed.

(** X4.  With a non-empty query that at most ten records match, the answer
    holds every matching record: nothing is lost to the cut. *)
Theorem search_items_all_when_few (items : list item) (query : string)
    (fields : list string) :
  query <> "" ->
  length (matching query fields items) <= 10 ->
  search_items items query fields ≡ₚ matching query fields items.
Proof.
  intros Hq Hlen. rewrite search_items_nonempty by done.
  fold (matching query fields items).
  rewrite take_ge; [apply ranked_perm|].
  by rewrite (Permutation_length (ranked_perm _ _)).
Qed.

Lemma eq_str_get (it : item) (key text : string) :
  eq_str (get it key) text = true <-> dict_get it key = Some (VStr text).
Proof.
  unfold get. destruct (dict_get it key) as [[]|]; simpl; try by split.
  rewrite String.eqb_eq. split; [by intros -> | by intros [= ->]].
Qed.

Lemma filter_field_passes (field : string) (p : option string) (items : list item) :
  filter_field field p items = List.filter (passes field p) items.
Proof.
  unfold filter_field, passes. destruct (given p); simpl; [done|].
  induction items as [|it items IH]; simpl; [done|]. by rewrite <- IH.
Qed.

Lemma filter_filter {A} (p q : A -> bool) (l : list A) :
  List.filter q (List.filter p l) = List.filter (fun x => p x && q x) l.
Proof.
  induction l as [|x l IH]; simpl; [done|].
  destruct (p x); simpl; [|done]. destruct (q x); by rewrite IH.
Qed.

Lemma search_if_given_elem (q : option string) (fields : list string)
    (items : list item) (it : item) :
  it ∈ search_if_given q fields items -> it ∈ items.
Proof.
  unfold search_if_given. destruct (given q); [|done].
  intros H. eapply elem_of_submseteq; [exact H | apply search_items_submseteq].
Qed.

Lemma passes_given (field text : string) (it : item) :
  text <> "" ->
  passes field (Some text) it = true <-> dict_get it field = Some (VStr text).
Proof.
  intros Ht. unfold passes, given. rewrite eqb_empty_false by done. simpl.
  apply eq_str_get.
Qed.

(** X5.  Every record that the best-practices listing returns under a
    category and a difficulty filter is a stored best practice whose
    [category] and [difficulty] are exactly the given texts, with or without
    a query. *)
Theorem list_best_practices_filters_hold (DATA : gmap string (list item))
    (q : option string) (category difficulty : string) (l : listing) :
  category <> "" -> difficulty <> "" ->
  fst (list_best_practices q (Some category) (Some difficulty) DATA) = Ok l ->
  forall it, it ∈ results l ->
    it ∈ stored DATA "best_practices"
    /\ dict_get it "category" = Some (VStr category)
    /\ dict_get it "difficulty" = Some (VStr difficulty).
Proof.
  intros Hc Hd Hl it Hit.
  unfold list_best_practices, bind, data_get, ret in Hl. simpl in Hl.
  injection Hl as <-. simpl in Hit.
  apply elem_of_take in Hit as (i & Hit & _).
  apply list_elem_of_lookup_2 in Hit.
  apply search_if_given_elem in Hit.
  rewrite !filter_field_passes, filter_filter in Hit.
  apply filter_elem_of in Hit as [Hin [H1 H2]%andb_true_iff].
  split; [done|]. split; by apply passes_given.
Qed.

(** X6.  Without a query, a listing reports as [total] the number of stored
    records that pass every given filter and returns the first ten of them in
    stored order; the tips listing returns all of them. *)
Theorem listings_without_query (DATA : gmap string (list item))
    (category difficulty language : option string) :
  fst (list_best_practices None category difficulty DATA)
  = (let kept := List.filter (fun it => passes "category" category it
                                        && passes "difficulty" difficulty it)
                   (stored DATA "best_practices") in
     Ok {| results := take 10 kept; total := length kept |})
  /\ fst (list_troubleshooting None category DATA)
     = (let kept := List.filter (passes "category" category)
                      (stored DATA "troubleshooting") in
        Ok {| results := take 10 kept; total := length kept |})
  /\ (language <> Some "any" ->
      fst (list_snippets None language DATA)
      = (let kept := List.filter (passes "language" language)
                       (stored DATA "snippets") in
         Ok {| results := take 10 kept; total := length kept |}))
  /\ fst (list_tips category DATA)
     = (let kept := List.filter (passes "category" category) (stored DATA "tips") in
        Ok {| results := kept; total := length kept |}).
Proof.
  cbv beta iota zeta delta [list_best_practices list_troubleshooting list_snippets
    list_tips bind data_get ret stored fst search_if_given given].
  rewrite !filter_field_passes, filter_filter.
  split; [done|]. split; [done|]. split; [|done].
  intros Hl. rewrite <- filter_field_passes. unfold filter_field, given.
  destruct language as [text|]; [|done].
  assert (String.eqb text "any" = false) as Hany.
  { apply String.eqb_neq. congruence. }
  simpl. rewrite Hany. by rewrite andb_true_r.
Qed.

Lemma found_is_nonempty (items : list item) (id : string) :
  nonempty (find_by_id items id) = find_by_id items id.
Proof.
  pose proof (find_by_id_spec items id) as H.
  destruct (find_by_id items id) as [it|]; [|done].
  destruct H as (_ & _ & _ & Hid & _). by destruct it.
Qed.

(** X7.  A get-by-id endpoint returns the first stored record with that
    [id], and raises the 404 error exactly when [find_by_id] finds none: its
    emptiness test never turns a record that was found into a 404. *)
Theorem get_by_id_found_or_404 (DATA : gmap string (list item)) (id : string) :
  let answer found :=
    match found with
    | Some it => Ok it
    | None => Raise not_found
    end in
  get_best_practice id DATA
  = (answer (find_by_id (stored DATA "best_practices") id), DATA)
  /\ get_snippet id DATA = (answer (find_by_id (stored DATA "snippets") id), DATA)
  /\ get_troubleshooting_by_id id DATA
     = (answer (find_by_id (stored DATA "troubleshooting") id), DATA).
Proof.
  unfold get_best_practice, get_snippet, get_troubleshooting_by_id, get_or_404,
    bind, data_get, ret, raise, stored, not_found. simpl.
  rewrite !found_is_nonempty.
  repeat split; by destruct (find_by_id _ _).
Qed.

(** X8.  A resource addressed by [id] answers with the output of its
    formatter on the first stored record with that [id]; when there is none
    it answers with its not-found sentence, which names the requested id, and
    raises nothing. *)
Theorem id_resources_found_or_sentence (DATA : gmap string (list item)) (id : string) :
  let answer (format : item -> result string) (missing : string) found :=
    match found with
    | Some it => format it
    | None => Ok missing
    end in
  get_best_practice_resource id DATA
  = (answer format_best_practice_full ("Best practice '" +:+ id +:+ "' not found.")
       (find_by_id (stored DATA "best_practices") id), DATA)
  /\ get_snippet_resource id DATA
     = (answer format_snippet_full ("Snippet '" +:+ id +:+ "' not found.")
          (find_by_id (stored DATA "snippets") id), DATA)
  /\ get_troubleshooting_resource id DATA
     = (answer format_troubleshooting_full
          ("Troubleshooting guide '" +:+ id +:+ "' not found.")
          (find_by_id (stored DATA "troubleshooting") id), DATA)
  /\ get_tip_resource id DATA
     = (answer format_tip_full ("Tip '" +:+ id +:+ "' not found.")
          (find_by_id (stored DATA "tips") id), DATA).
Proof.
  unfold get_best_practice_resource, get_snippet_resource,
    get_troubleshooting_resource, get_tip_resource, format_or,
    bind, data_get, ret, lift, stored. simpl.
  rewrite !found_is_nonempty.
  repeat split; by destruct (find_by_id _ _).
Qed.

(** * Further properties of startup and of access control *)

Lemma search_items_nil (query : string) (fields : list string) :
  search_items [] query fields = [].
Proof. unfold search_items. by destruct (String.eqb query ""). Qed.

Lemma started_lookup (files DATA : gmap string (list item)) :
  stored (started files DATA) "best_practices" = load_json files "best_practices.json"
  /\ stored (started files DATA) "snippets" = load_json files "snippets.json"
  /\ stored (started files DATA) "troubleshooting"
     = load_json files "troubleshooting.json"
  /\ stored (started files DATA) "tips" = load_json files "tips.json"
  /\ stored (started files DATA) "governance" = load_json files "governance.json".
Proof.
  unfold started, stored. rewrite lifespan_loads.
  repeat split; by simplify_map_eq.
Qed.

(** X9.  After startup the health probe reports [data_loaded] as true,
    whatever files exist, also when every data file is missing; before
    startup, on the empty store, it reports false. *)
Theorem health_after_startup (files DATA : gmap string (list item)) :
  fst (health (started files DATA)) = Ok ("healthy", true)
  /\ fst (health ∅) = Ok ("healthy", false).
Proof.
  split; [|reflexivity].
  unfold health, bind, data_loaded, ret, started. rewrite lifespan_loads. simpl.
  rewrite bool_decide_eq_false_2; [done|]. apply insert_non_empty.
Qed.

(** X10.  When best_practices.json is missing at startup, the service runs
    with an empty collection: every listing of best practices is empty with
    total 0, every get-by-id is a 404, the resource answers with its
    not-found sentence and the search tool with its no-match sentence. *)
Theorem missing_file_degrades (files DATA : gmap string (list item)) :
  files !! "best_practices.json" = None ->
  stored (started files DATA) "best_practices" = []
  /\ (forall q category difficulty,
        fst (list_best_practices q category difficulty (started files DATA))
        = Ok {| results := []; total := 0 |})
  /\ (forall id, fst (get_best_practice id (started files DATA)) = Raise not_found)
  /\ (forall id,
        fst (get_best_practice_resource id (started files DATA))
        = Ok ("Best practice '" +:+ id +:+ "' not found."))
  /\ (forall query category difficulty,
        fst (search_best_practices query category difficulty (started files DATA))
        = Ok "No best practices found matching your query.").
Proof.
  intros Hmiss.
  assert (stored (started files DATA) "best_practices" = []) as Hempty.
  { rewrite (proj1 (started_lookup files DATA)). unfold load_json. by rewrite Hmiss. }
  split; [done|]. unfold stored in Hempty.
  repeat split; intros;
    cbv beta iota zeta delta [list_best_practices get_best_practice
      get_best_practice_resource search_best_practices bind data_get ret fst];
    rewrite Hempty; rewrite ?filter_field_passes; simpl;
    rewrite ?search_items_nil; try done.
  unfold search_if_given. destruct (given q); by rewrite ?search_items_nil.
Qed.

(** X11.  Startup replaces the five collections and nothing else decides
    them: the collections after startup are the same from any earlier store,
    and a second startup from the same files changes nothing. *)
Theorem startup_overwrites (files DATA1 DATA2 : gmap string (list item)) :
  (forall name,
      name ∈ ["best_practices"; "snippets"; "troubleshooting"; "tips"; "governance"] ->
      started files DATA1 !! name = started files DATA2 !! name)
  /\ started files (started files DATA1) = started files DATA1.
Proof.
  unfold started. rewrite !lifespan_loads. split.
  - intros name Hn. repeat (apply elem_of_cons in Hn as [->|Hn]; [by simplify_map_eq|]).
    by apply elem_of_nil in Hn.
  - apply map_eq. intros name. rewrite !lookup_insert. by repeat case_decide.
Qed.

Lemma mcp_is_not_health (p : string) : startswith p "/mcp" = true -> p <> "/health".
Proof. intros H ->. discriminate H. Qed.

(** X12.  A request that carries a non-empty key of the allow-list is passed
    on as it came, unless it is a GET under /mcp. *)
Theorem auth_valid_key_forwarded (API_KEYS : gset string) (r : request) (key : string) :
  headers_get (headers r) "X-API-Key" = Some key ->
  key <> "" -> key ∈ API_KEYS ->
  ~ (startswith (path r) "/mcp" = true /\ method r = "GET") ->
  auth_middleware API_KEYS r = CallNext r.
Proof.
  intros Hh Hne Hin Hmcp. unfold auth_middleware.
  destruct (String.eqb (path r) "/health" || String.eqb (method r) "OPTIONS"); [done|].
  destruct (startswith (path r) "/mcp" && String.eqb (method r) "GET") eqn:Hg.
  - apply andb_true_iff in Hg as [H1 H2%String.eqb_eq]. tauto.
  - rewrite Hh. unfold given. rewrite eqb_empty_false by done. simpl.
    by rewrite bool_decide_eq_true_2.
Qed.

(** X13.  Every GET on a path that starts with /mcp is answered with the
    fixed probe body and status 200, with a valid key, a wrong key or none:
    it never reaches the tool protocol. *)
Theorem auth_mcp_get_probe (API_KEYS : gset string) (r : request) :
  method r = "GET" -> startswith (path r) "/mcp" = true ->
  auth_middleware API_KEYS r = probe.
Proof.
  intros Hm Hp. unfold auth_middleware.
  rewrite (proj2 (String.eqb_neq _ _) (mcp_is_not_health _ Hp)).
  rewrite Hm, Hp. reflexivity.
Qed.

(** X14.  What the access check passes on is the request itself, and it
    passes a request on only for the health path, for the method OPTIONS, or
    for a non-empty key of the allow-list. *)
Theorem auth_forward_sound (API_KEYS : gset string) (r r' : request) :
  auth_middleware API_KEYS r = CallNext r' ->
  r' = r
  /\ (path r = "/health" \/ method r = "OPTIONS"
      \/ exists key, headers_get (headers r) "X-API-Key" = Some key
                     /\ key <> "" /\ key ∈ API_KEYS).
Proof.
  unfold auth_middleware.
  destruct (String.eqb_spec (path r) "/health") as [Hp|Hp]; simpl.
  { intros [= <-]. by split; [|left]. }
  destruct (String.eqb_spec (method r) "OPTIONS") as [Hm|Hm]; simpl.
  { intros [= <-]. by split; [|right; left]. }
  destruct (startswith (path r) "/mcp" && String.eqb (method r) "GET"); [done|].
  destruct (headers_get (headers r) "X-API-Key") as [key|]; simpl; [|done].
  destruct (String.eqb_spec key "") as [->|Hk]; simpl; [done|].
  destruct (bool_decide_reflect (key ∈ API_KEYS)) as [Hin|Hin]; simpl; [|done].
  intros [= <-]. split; [done|]. right; right. by exists key.
Qed.

(** * The key allow-list *)

Lemma has_char_str_in (c : ascii) (s : string) :
  str_in (String c "") s = has_char c s.
Proof.
  induction s as [|c' s IH]; [done|].
  change (str_in (String c "") (String c' s))
    with (String.prefix (String c "") (String c' s) || str_in (String c "") s).
  rewrite IH. simpl. f_equal.
  destruct (Ascii.ascii_dec c c') as [->|Hne].
  - rewrite Ascii.eqb_refl. by destruct s.
  - symmetry. apply Ascii.eqb_neq. congruence.
Qed.

Lemma rstrip_idem (s : string) : rstrip (rstrip s) = rstrip s.
Proof.
  induction s as [|c s IH]; [done|]. simpl.
  destruct (rstrip s) as [|a r] eqn:Hr.
  - destruct (is_space c) eqn:Hc; [done|]. simpl. by rewrite Hc.
  - simpl in *. by rewrite IH.
Qed.

Lemma rstrip_head (c : ascii) (s : string) :
  is_space c = false -> exists r, rstrip (String c s) = String c r.
Proof.
  intros Hc. simpl. destruct (rstrip s); [rewrite Hc|]; by eexists.
Qed.

Lemma lstrip_head (s : string) :
  lstrip s = "" \/ exists c r, lstrip s = String c r /\ is_space c = false.
Proof.
  induction s as [|c s IH]; [by left|]. simpl.
  destruct (is_space c) eqn:Hc; [done|]. right. by exists c, s.
Qed.

Lemma strip_idem (s : string) : strip (strip s) = strip s.
Proof.
  unfold strip. destruct (lstrip_head s) as [->|(c & r & -> & Hc)]; [done|].
  destruct (rstrip_head c r Hc) as [r' Hr]. rewrite Hr.
  simpl lstrip. rewrite Hc. rewrite <- Hr. apply rstrip_idem.
Qed.

Lemma lstrip_has_char (c : ascii) (s : string) :
  has_char c s = false -> has_char c (lstrip s) = false.
Proof.
  induction s as [|c' s IH]; [done|]. simpl.
  intros [H1 H2]%orb_false_iff. destruct (is_space c'); [by apply IH|].
  simpl. by rewrite H1, H2.
Qed.

Lemma rstrip_has_char (c : ascii) (s : string) :
  has_char c s = false -> has_char c (rstrip s) = false.
Proof.
  induction s as [|c' s IH]; [done|]. simpl.
  intros [H1 H2]%orb_false_iff. specialize (IH H2).
  destruct (rstrip s) as [|a r].
  - destruct (is_space c'); [done|]. simpl. by rewrite H1.
  - simpl in *. by rewrite H1, IH.
Qed.

Lemma split_char_pieces (sep : ascii) (s : string) :
  Forall (fun piece => has_char sep piece = false) (split_char sep s)
  /\ split_char sep s <> [].
Proof.
  induction s as [|c s [IH Hne]]; simpl.
  - split; [by repeat constructor | done].
  - destruct (Ascii.eqb_spec c sep) as [->|Hc].
    + split; [by constructor | done].
    + destruct (split_char sep s) as [|piece pieces]; [done|].
      split; [|done]. inversion IH; subst. constructor; [|done].
      simpl. rewrite (proj2 (Ascii.eqb_neq _ _) Hc). done.
Qed.

(** X15.  Whatever the environment holds, every key of the allow-list is
    clean: it is not empty, has no white space at either end, and has no
    comma.  The empty key is never allowed. *)
Theorem API_KEYS_clean (env : option string) (key : string) :
  key ∈ API_KEYS_of_env env ->
  clean_key key /\ str_in "," key = false.
Proof.
  unfold API_KEYS_of_env. rewrite elem_of_list_to_set.
  intros Hin. apply list_elem_of_In, in_map_iff in Hin as (piece & <- & Hin).
  apply filter_In in Hin as [Hin Hne].
  apply negb_true_iff, String.eqb_neq in Hne.
  assert (has_char "," (strip piece) = false) as Hcomma.
  { apply rstrip_has_char, lstrip_has_char.
    pose proof (proj1 (split_char_pieces "," (default "" env))) as Hall.
    rewrite List.Forall_forall in Hall. by apply Hall. }
  split; [|by rewrite has_char_str_in].
  split; [done|]. split; [apply strip_idem | done].
Qed.

(** X16.  With the variable unset or empty the allow-list is empty, and the
    service then rejects every request that is not exempt, whatever key it
    carries. *)
Theorem unconfigured_rejects_all (r : request) :
  path r <> "/health" -> method r <> "OPTIONS" ->
  ~ (startswith (path r) "/mcp" = true /\ method r = "GET") ->
  API_KEYS_of_env None = ∅ /\ API_KEYS_of_env (Some "") = ∅
  /\ auth_middleware (API_KEYS_of_env None) r = rejection.
Proof.
  intros Hp Hm Hmcp. split; [done|]. split; [done|].
  change (API_KEYS_of_env None) with (∅ : gset string).
  unfold auth_middleware.
  rewrite (proj2 (String.eqb_neq _ _) Hp), (proj2 (String.eqb_neq _ _) Hm). simpl.
  destruct (startswith (path r) "/mcp" && String.eqb (method r) "GET") eqn:Hg.
  - apply andb_true_iff in Hg as [H1 H2%String.eqb_eq]. tauto.
  - rewrite bool_decide_eq_false_2 by set_solver. by rewrite orb_true_r.
Qed.

Lemma split_char_clean (key : string) :
  has_char "," key = false -> split_char "," key = [key].
Proof.
  induction key as [|c key IH]; [done|]. simpl.
  intros [H1 H2]%orb_false_iff. rewrite H1, IH; done.
Qed.

Lemma split_char_join (key rest : string) :
  has_char "," key = false ->
  split_char "," (key +:+ "," +:+ rest) = key :: split_char "," rest.
Proof.
  induction key as [|c key IH]; [done|]. simpl.
  intros [H1 H2]%orb_false_iff. rewrite H1, IH; done.
Qed.

Lemma split_char_of_join (keys : list string) :
  keys <> [] ->
  Forall (fun key => has_char "," key = false) keys ->
  split_char "," (join "," keys) = keys.
Proof.
  intros Hne Hall. induction Hall as [|key keys Hk Hall IH]; [done|].
  destruct keys as [|key' keys]; simpl.
  - by apply split_char_clean.
  - change (split_char "," (key +:+ "," +:+ join "," (key' :: keys))
            = key :: key' :: keys).
    rewrite split_char_join by done. f_equal. by apply IH.
Qed.

(** X17.  Round trip: when the variable is a comma-separated list of clean
    keys, the allow-list is exactly the set of these keys. *)
Theorem API_KEYS_of_joined (keys : list string) :
  Forall clean_key keys ->
  API_KEYS_of_env (Some (join "," keys)) = list_to_set keys.
Proof.
  intros Hall. destruct keys as [|key keys]; [done|].
  unfold API_KEYS_of_env.
  change (default "" (Some (join "," (key :: keys)))) with (join "," (key :: keys)).
  rewrite split_char_of_join; [|done|].
  - f_equal. induction Hall as [|k ks (Hne & Hs & _) _ IH]; [done|].
    simpl. rewrite Hs, eqb_empty_false by done. simpl. by rewrite Hs, IH.
  - eapply Forall_impl; [exact Hall|]. by intros k (_ & _ & Hc).
Qed.

Lemma API_KEYS_of_joined_witness :
  Forall clean_key ["mcs-bootcamp-2025"; "second-key"]
  /\ "second-key" ∈ API_KEYS_of_env (Some "mcs-bootcamp-2025,second-key").
Proof.
  assert (Forall clean_key ["mcs-bootcamp-2025"; "second-key"]) as Hall.
  { repeat constructor; discriminate. }
  split; [exact Hall|].
  change (Some "mcs-bootcamp-2025,second-key")
    with (Some (join "," ["mcs-bootcamp-2025"; "second-key"])).
  rewrite (API_KEYS_of_joined _ Hall). set_solver.
Defined.

(** * Further properties of the governance lookups *)

Lemma str_map_compose (f g : ascii -> ascii) (s : string) :
  str_map g (str_map f s) = str_map (fun c => g (f c)) s.
Proof. induction s as [|c s IH]; simpl; [done|]. by rewrite IH. Qed.

Lemma str_map_ext (f g : ascii -> ascii) (s : string) :
  (forall c, f c = g c) -> str_map f s = str_map g s.
Proof. intros H. induction s as [|c s IH]; simpl; [done|]. by rewrite H, IH. Qed.

Lemma has_char_str_map (f : ascii -> ascii) (x : ascii) (s : string) :
  (forall c, Ascii.eqb (f c) x = false) -> has_char x (str_map f s) = false.
Proof. intros H. induction s as [|c s IH]; simpl; [done|]. by rewrite H, IH. Qed.

Lemma normalize_str_map (feature : string) :
  normalize feature = str_map normalize_char feature.
Proof.
  unfold normalize, replace_char, lower. rewrite !str_map_compose.
  apply str_map_ext. reflexivity.
Qed.

Lemma normalize_char_fixed (c : ascii) :
  normalize_char (normalize_char c) = normalize_char c
  /\ Ascii.eqb (normalize_char c) " " = false
  /\ Ascii.eqb (normalize_char c) "_" = false
  /\ lower_char (normalize_char c) = normalize_char c.
Proof. destruct c as [[] [] [] [] [] [] [] []]; vm_compute; done. Qed.

(** X18.  The normalized form of a name is a fixed point of the
    normalization and has no space, no underscore and no upper-case letter. *)
Theorem normalize_normal_form (feature : string) :
  normalize (normalize feature) = normalize feature
  /\ has_char " " (normalize feature) = false
  /\ has_char "_" (normalize feature) = false
  /\ lower (normalize feature) = normalize feature.
Proof.
  unfold lower. rewrite !normalize_str_map, !str_map_compose.
  split; [|split; [|split]].
  - apply str_map_ext. intros c. apply normalize_char_fixed.
  - apply has_char_str_map. intros c. apply normalize_char_fixed.
  - apply has_char_str_map. intros c. apply normalize_char_fixed.
  - apply str_map_ext. intros c. apply normalize_char_fixed.
Qed.

Lemma first_match_raise (test : item -> result bool) (P : exn -> Prop)
    (l : list item) (e : exn) :
  (forall it e, test it = Raise e -> P e) ->
  first_match test l = Raise e -> P e.
Proof.
  intros Htest. induction l as [|it l IH]; simpl; [done|].
  destruct (test it) as [[]|e'] eqn:Hit; [done | exact IH |].
  intros [= <-]. by eapply Htest.
Qed.

Lemma governance_tests_raise (name : string) (it : item) (e : exn) :
  feature_matches name it = Raise e \/ display_name_matches name it = Raise e ->
  e = TypeError \/ e = AttributeError.
Proof.
  unfold feature_matches, display_name_matches, or_else, contains, value_lower, rbind.
  intros [H|H].
  - destruct (eq_str _ _); [done|].
    destruct (get_or it "feature" (VStr "")); simplify_eq; auto.
  - destruct (get_or it "display_name" (VStr "")); simplify_eq; auto.
Qed.

(** X19.  The REST lookup depends on the requested name through its
    normalized form only: two names with the same normalized form get the
    same record, and one is a 404 exactly when the other is. *)
Theorem get_governance_same_normal_form (DATA : gmap string (list item))
    (feature1 feature2 : string) :
  normalize feature1 = normalize feature2 ->
  (forall it, fst (get_governance feature1 DATA) = Ok it
              <-> fst (get_governance feature2 DATA) = Ok it)
  /\ (fst (get_governance feature1 DATA)
      = Raise (HTTPException 404 ("No governance info for: " +:+ feature1))
      <-> fst (get_governance feature2 DATA)
          = Raise (HTTPException 404 ("No governance info for: " +:+ feature2))).
Proof.
  intros Hn. unfold get_governance, bind, data_get, lift, ret, raise. rewrite Hn.
  assert (forall test l e,
            (test = feature_matches (normalize feature2)
             \/ test = display_name_matches (normalize feature2)) ->
            first_match test l = Raise e ->
            forall detail, Raise e <> @Raise item (HTTPException 404 detail)) as Hraise.
  { intros test l e Htest Hf detail [= ->].
    apply (first_match_raise test (fun e => e = TypeError \/ e = AttributeError)) in Hf.
    - by destruct Hf.
    - intros it e He. apply (governance_tests_raise (normalize feature2) it).
      destruct Htest as [->| ->]; auto. }
  destruct (first_match (feature_matches _) _) as [[it1|]|e1] eqn:H1; simpl; [done| |].
  - destruct (first_match (display_name_matches _) _) as [[it2|]|e2] eqn:H2; simpl;
      [done|done|].
    split; [done|].
    split; intros H; exfalso; exact (Hraise _ _ _ (or_intror eq_refl) H2 _ H).
  - split; [done|].
    split; intros H; exfalso; exact (Hraise _ _ _ (or_introl eq_refl) H1 _ H).
Qed.

Lemma find_none_forall {A} (p : A -> bool) (l : list A) :
  List.find p l = None <-> Forall (fun x => p x = false) l.
Proof.
  split; [|apply find_none_all].
  induction l as [|x l IH]; simpl; [constructor|].
  destruct (p x) eqn:Hx; [done|]. constructor; auto.
Qed.

(** X20.  On records of the stored shape, a name that the REST lookup
    answers with 404 gets the not-found sentence from the tool
    [check_governance_zone] and from the governance resource: the three
    front-ends agree on what is absent. *)
Theorem governance_absent_everywhere (DATA : gmap string (list item)) (feature : string) :
  Forall (fun it => governance_shaped it = true) (governance DATA) ->
  fst (get_governance feature DATA)
  = Raise (HTTPException 404 ("No governance info for: " +:+ feature)) ->
  fst (check_governance_zone feature DATA)
  = Ok ("No governance information found for '" +:+ feature +:+ "'.")
  /\ fst (get_governance_resource feature DATA)
     = Ok ("Governance info for '" +:+ feature +:+ "' not found.").
Proof.
  intros Hs. rewrite get_governance_find, check_governance_zone_find,
    get_governance_resource_find by done. simpl.
  destruct (List.find (feature_has _) _) eqn:Hf; [done|].
  destruct (List.find (name_has _) _) eqn:Hn; [done|]. intros _.
  apply find_none_forall in Hf, Hn.
  assert (Forall (fun it => feature_has (normalize feature) it
                            || name_has (normalize feature) it = false)
            (governance DATA)) as Hboth.
  { clear -Hf Hn. induction Hf as [|it l Hit _ IH]; [constructor|].
    inversion Hn; subst. constructor; [|by apply IH].
    rewrite Hit. simpl. done. }
  rewrite (find_none_all _ _ Hboth). split; [done|].
  rewrite find_none_all; [done|].
  eapply Forall_impl; [exact Hf|]. intros it Hit. simpl in Hit.
  destruct (feature_is (normalize feature) it) eqn:Hexact; [|done].
  unfold feature_is, feature_has, get, get_or in *.
  destruct (dict_get it "feature") as [[]|]; simpl in *; try done.
  apply String.eqb_eq in Hexact as ->. by rewrite str_in_refl in Hit.
Qed.

(** * Further properties of the formatters, resources and tools *)

(** X21.  A resource whose record is stored without a [title] raises the
    key error for it; the record being found, the not-found sentence is not
    used. *)
Theorem resources_need_title (DATA : gmap string (list item)) (id : string) (it : item) :
  dict_get it "title" = None ->
  (find_by_id (stored DATA "best_practices") id = Some it ->
   fst (get_best_practice_resource id DATA) = Raise (KeyError "title"))
  /\ (find_by_id (stored DATA "snippets") id = Some it ->
      fst (get_snippet_resource id DATA) = Raise (KeyError "title"))
  /\ (find_by_id (stored DATA "troubleshooting") id = Some it ->
      fst (get_troubleshooting_resource id DATA) = Raise (KeyError "title"))
  /\ (find_by_id (stored DATA "tips") id = Some it ->
      fst (get_tip_resource id DATA) = Raise (KeyError "title")).
Proof.
  intros Ht.
  unfold get_best_practice_resource, get_snippet_resource,
    get_troubleshooting_resource, get_tip_resource, format_or,
    bind, data_get, ret, lift, stored. simpl.
  rewrite !found_is_nonempty.
  repeat split; intros ->; simpl;
    unfold format_best_practice_full, format_snippet_full,
      format_troubleshooting_full, troubleshooting_lines, format_tip_full, subscript;
    by rewrite Ht.
Qed.

(** X22.  A troubleshooting guide whose symptoms, causes and steps are
    absent or empty renders as its title line alone: no section heading is
    printed for an empty section. *)
Theorem troubleshooting_sections_omitted (it : item) (title : value) :
  dict_get it "title" = Some title ->
  truthy (get it "symptoms") = false ->
  truthy (get it "causes") = false ->
  truthy (get it "steps") = false ->
  format_troubleshooting_full it = Ok ("# " +:+ str title).
Proof.
  intros Ht Hs Hc Hst.
  unfold format_troubleshooting_full, troubleshooting_lines, bullet_section,
    steps_section, subscript.
  rewrite Ht. simpl. by rewrite Hs, Hc, Hst.
Qed.

Lemma append_assoc (a b c : string) : (a +:+ b) +:+ c = a +:+ (b +:+ c).
Proof.
  induction a as [|x a IH]; [done|].
  change (String x ((a +:+ b) +:+ c) = String x (a +:+ (b +:+ c))). by rewrite IH.
Qed.

Lemma join_snoc (sep : string) (lines : list string) (x : string) :
  lines <> [] -> join sep (lines ++ [x]) = join sep lines +:+ sep +:+ x.
Proof.
  intros Hne. induction lines as [|l lines IH]; [done|].
  destruct lines as [|l' lines]; [done|].
  change (join sep ((l :: l' :: lines) ++ [x]))
    with (l +:+ sep +:+ join sep ((l' :: lines) ++ [x])).
  rewrite IH by done.
  change (join sep (l :: l' :: lines)) with (l +:+ sep +:+ join sep (l' :: lines)).
  by rewrite !append_assoc.
Qed.

Lemma for_each_nonempty {A} (xs : list A) (body : list string -> A -> result (list string))
    (lines lines' : list string) :
  (forall acc x acc', body acc x = Ok acc' -> acc <> [] -> acc' <> []) ->
  for_each xs body lines = Ok lines' -> lines <> [] -> lines' <> [].
Proof.
  intros Hbody. revert lines. induction xs as [|x xs IH]; intros lines; simpl.
  - by intros [= ->].
  - destruct (body lines x) as [acc|] eqn:Hb; simpl; [|done].
    intros Hf Hne. eapply IH; [exact Hf|]. by eapply Hbody.
Qed.

Lemma app_nonempty {A} (l k : list A) : l <> [] -> l ++ k <> [].
Proof. by destruct l. Qed.

Lemma step_lines_nonempty (acc : list string) (step : value) (acc' : list string) :
  step_lines acc step = Ok acc' -> acc <> [] -> acc' <> [].
Proof.
  unfold step_lines, rbind. repeat case_match; try done.
  intros [= <-] ?. by apply app_nonempty.
Qed.

Lemma troubleshooting_lines_nonempty (it : item) (lines : list string) :
  troubleshooting_lines it = Ok lines -> lines <> [].
Proof.
  unfold troubleshooting_lines, bullet_section, steps_section, rbind.
  destruct (subscript it "title") as [title|]; [|done].
  set (l0 := ["# " +:+ str title]).
  assert (l0 <> []) as H0 by done. clearbody l0.
  repeat match goal with
         | |- context [truthy ?v] => destruct (truthy v)
         | |- context [iterate ?v] => destruct (iterate v); [|done]
         end;
    first [ intros [= <-]; by repeat apply app_nonempty
          | intros Hf; eapply for_each_nonempty;
            [apply step_lines_nonempty | exact Hf | by repeat apply app_nonempty] ].
Qed.

(** X23.  When exactly one guide matches the issue, the tool
    [troubleshoot_issue] answers with the text of the troubleshooting
    formatter for that guide, followed by a blank line and the locator of the
    guide. *)
Theorem troubleshoot_issue_single_hit (DATA : gmap string (list item)) (issue : string)
    (it : item) :
  search_items (stored DATA "troubleshooting") issue
    ["title"; "symptoms"; "causes"; "tags"] = [it] ->
  fst (troubleshoot_issue issue DATA)
  = rbind (format_troubleshooting_full it) (fun text =>
    rbind (subscript it "id") (fun id =>
    Ok (text +:+ nl +:+ nl +:+ "Resource URI: troubleshooting://" +:+ str id))).
Proof.
  intros Hs. unfold troubleshoot_issue, bind, data_get, lift, ret, stored in *.
  simpl. rewrite Hs. unfold format_troubleshooting_full.
  destruct (troubleshooting_lines it) as [lines|] eqn:Hl; simpl; [|done].
  destruct (subscript it "id") as [id|]; simpl; [|done].
  f_equal. apply join_snoc. by eapply troubleshooting_lines_nonempty.
Qed.

(** * The Accept-header middleware *)

Lemma find_app_first {A} (p : A -> bool) (l k : list A) :
  List.find p (l ++ k)
  = match List.find p l with
    | Some x => Some x
    | None => List.find p k
    end.
Proof. induction l as [|x l IH]; simpl; [done|]. by destruct (p x). Qed.

Lemma find_ext_Forall {A} (p q : A -> bool) (l : list A) :
  Forall (fun x => p x = q x) l -> List.find p l = List.find q l.
Proof. induction 1 as [|x l Hx _ IH]; simpl; [done|]. by rewrite Hx, IH. Qed.

Lemma first_value_dict_set (d : list (string * string)) (k v name : string) :
  first_value (dict_set d k v) name
  = if String.eqb k name then Some v else first_value d name.
Proof.
  unfold first_value. induction d as [|[k' v'] d IH]; simpl.
  - by destruct (String.eqb k name).
  - destruct (String.eqb_spec k' k) as [->|Hk]; simpl.
    + by destruct (String.eqb k name).
    + destruct (String.eqb_spec k' name) as [->|Hn]; simpl; [|exact IH].
      by rewrite (proj2 (String.eqb_neq _ _) (not_eq_sym Hk)).
Qed.

Lemma dict_set_names (d : list (string * string)) (k v : string) (P : string -> Prop) :
  Forall (fun kv => P (fst kv)) d -> P k ->
  Forall (fun kv => P (fst kv)) (dict_set d k v).
Proof.
  intros Hd Hk. induction Hd as [|[k' v'] d Hkv Hd IH]; simpl.
  - by repeat constructor.
  - destruct (String.eqb k' k); constructor; simpl in *; done.
Qed.

Lemma dict_set_NoDup (d : list (string * string)) (k v : string) :
  NoDup (map fst d) -> NoDup (map fst (dict_set d k v)).
Proof.
  induction d as [|[k' v'] d IH]; simpl.
  - intros _. apply NoDup_singleton.
  - destruct (String.eqb_spec k' k) as [->|Hk]; [done|]. simpl.
    intros [Hnotin Hnd]%NoDup_cons. apply NoDup_cons. split; [|by apply IH].
    intros Hin. apply Hnotin. clear -Hin Hk.
    induction d as [|[k2 v2] d IH]; simpl in *.
    + apply list_elem_of_singleton in Hin. congruence.
    + destruct (String.eqb k2 k); simpl in *; [done|].
      apply elem_of_cons in Hin as [->|Hin]; [left | right; by apply IH].
Qed.

Lemma dict_of_pairs_fold (hs d : list (string * string)) (P : string -> Prop)
    (name : string) :
  let d' := fold_left (fun d kv => dict_set d (fst kv) (snd kv)) hs d in
  (NoDup (map fst d) -> NoDup (map fst d'))
  /\ (Forall (fun kv => P (fst kv)) d -> Forall (fun kv => P (fst kv)) hs ->
      Forall (fun kv => P (fst kv)) d')
  /\ first_value d' name
     = match last_value hs name with
       | Some v => Some v
       | None => first_value d name
       end.
Proof.
  revert d. induction hs as [|[k v] hs IH]; intros d; simpl; [done|].
  destruct (IH (dict_set d k v)) as (H1 & H2 & H3). split; [|split].
  - intros Hd. by apply H1, dict_set_NoDup.
  - intros Hd Hhs. inversion Hhs; subst. apply H2; [by apply dict_set_names | done].
  - rewrite H3, first_value_dict_set. unfold last_value. simpl rev.
    rewrite find_app_first. simpl.
    destruct (List.find _ (rev hs)); simpl; [done|].
    by destruct (String.eqb k name).
Qed.

Lemma headers_get_lowercase (hs : list (string * string)) (name : string) :
  lowercase_names hs -> headers_get hs name = first_value hs (lower name).
Proof.
  intros Hlow. unfold headers_get, first_value. f_equal.
  apply find_ext_Forall. eapply Forall_impl; [exact Hlow|].
  intros kv Hkv. simpl in Hkv. by rewrite Hkv.
Qed.

(** X24.  A POST under /mcp reaches the tool protocol with an Accept header
    that advertises text/event-stream: the header is kept when it already
    does, and set to the streaming value when it is missing or does not.
    Path and method are kept.  (Header names in lower case, as an ASGI server
    delivers them.) *)
Theorem mcp_accept_advertises (r : request) :
  lowercase_names (headers r) ->
  startswith (path r) "/mcp" = true -> method r = "POST" ->
  exists r' accept,
    mcp_accept_middleware r = CallNext r'
    /\ path r' = path r /\ method r' = method r
    /\ headers_get (headers r') "accept" = Some accept
    /\ str_in "text/event-stream" accept = true.
Proof.
  intros Hlow Hp Hm. unfold mcp_accept_middleware. rewrite Hp, Hm. simpl.
  destruct (str_in "text/event-stream" (default "" (headers_get (headers r) "accept")))
    eqn:Hadv; simpl.
  - destruct (headers_get (headers r) "accept") as [accept|] eqn:Hget; [|done].
    by exists r, accept.
  - eexists _, streaming_accept. split; [reflexivity|]. simpl.
    split; [done|]. split; [done|]. split; [|reflexivity].
    rewrite headers_get_lowercase.
    + change (lower "accept") with "accept". by rewrite first_value_dict_set.
    + destruct (dict_of_pairs_fold (headers r) [] (fun k => lower k = k) "accept")
        as (_ & Hnames & _).
      apply (dict_set_names _ _ _ (fun k => lower k = k)); [|reflexivity].
      apply Hnames; [constructor | exact Hlow].
Qed.

(** X25.  The middleware always passes the request on, with its path and
    method; it passes the request on untouched unless it is a POST under /mcp
    whose Accept header does not advertise text/event-stream. *)
Theorem mcp_accept_forwards (r : request) :
  exists r',
    mcp_accept_middleware r = CallNext r'
    /\ path r' = path r /\ method r' = method r
    /\ (startswith (path r) "/mcp" = false \/ method r <> "POST"
        \/ str_in "text/event-stream" (default "" (headers_get (headers r) "accept"))
           = true ->
        r' = r).
Proof.
  unfold mcp_accept_middleware.
  destruct (startswith (path r) "/mcp") eqn:Hp; simpl; [|by exists r].
  destruct (String.eqb_spec (method r) "POST") as [Hm|Hm]; [|by exists r].
  destruct (str_in _ _) eqn:Hadv; simpl; [by exists r|].
  eexists. split; [reflexivity|]. simpl. split; [done|]. split; [done|].
  intros [?|[?|?]]; done.
Qed.

(** X26.  When the middleware sets the Accept header it rebuilds the header
    list as a dictionary: every name then occurs once, Accept has the
    streaming value, and every other name keeps the value of its last
    occurrence, so repeated headers are collapsed. *)
Theorem mcp_accept_collapses (r : request) :
  startswith (path r) "/mcp" = true -> method r = "POST" ->
  str_in "text/event-stream" (default "" (headers_get (headers r) "accept")) = false ->
  exists r',
    mcp_accept_middleware r = CallNext r'
    /\ NoDup (map fst (headers r'))
    /\ first_value (headers r') "accept" = Some streaming_accept
    /\ forall name, name <> "accept" ->
         first_value (headers r') name = last_value (headers r) name.
Proof.
  intros Hp Hm Hadv. unfold mcp_accept_middleware. rewrite Hp, Hm, Hadv. simpl.
  eexists. split; [reflexivity|]. simpl.
  split; [|split].
  - apply dict_set_NoDup.
    destruct (dict_of_pairs_fold (headers r) [] (fun _ => True) "accept") as (H & _).
    apply H. constructor.
  - by rewrite first_value_dict_set.
  - intros name Hn. rewrite first_value_dict_set.
    rewrite (proj2 (String.eqb_neq _ _) (not_eq_sym Hn)).
    destruct (dict_of_pairs_fold (headers r) [] (fun _ => True) name) as (_ & _ & H).
    fold (dict_of_pairs (headers r)) in H. rewrite H.
    by destruct (last_value (headers r) name).
Qed.

(** * The further properties at sample inputs *)

Lemma search_items_query_case_witness :
  lower "ERROR" = lower "error"
  /\ search_items eleven_practices "ERROR" search_fields
     = search_items eleven_practices "error" search_fields.
Proof.
  split; [reflexivity|].
  apply (search_items_query_case eleven_practices "ERROR" "error"). reflexivity.
Defined.

Lemma search_items_best_first_witness :
  spec_score (lower "error") search_fields naming_practice
  <= spec_score (lower "error") search_fields handling_practice.
Proof.
  apply (search_items_best_first [naming_practice; handling_practice] "error"
           search_fields handling_practice [naming_practice]).
  - discriminate.
  - vm_compute. reflexivity.
  - apply list_elem_of_here.
Defined.

Lemma search_items_all_when_few_witness :
  search_items [naming_practice; handling_practice] "error" search_fields
  ≡ₚ matching "error" search_fields [naming_practice; handling_practice].
Proof.
  apply (search_items_all_when_few [naming_practice; handling_practice] "error").
  - discriminate.
  - vm_compute. lia.
Defined.

Lemma list_best_practices_filters_hold_witness :
  handling_practice ∈ stored two_practices "best_practices"
  /\ dict_get handling_practice "category" = Some (VStr "reliability")
  /\ dict_get handling_practice "difficulty" = Some (VStr "beginner").
Proof.
  apply (list_best_practices_filters_hold two_practices (Some "error")
           "reliability" "beginner" {| results := [handling_practice]; total := 1 |}).
  - discriminate.
  - discriminate.
  - vm_compute. reflexivity.
  - apply list_elem_of_here.
Defined.

Lemma missing_file_degrades_witness :
  tips_only !! "best_practices.json" = None
  /\ stored (started tips_only ∅) "best_practices" = [].
Proof.
  assert (tips_only !! "best_practices.json" = None) as Hmiss by reflexivity.
  split; [exact Hmiss|]. exact (proj1 (missing_file_degrades tips_only ∅ Hmiss)).
Defined.

Lemma auth_valid_key_forwarded_witness :
  auth_middleware bootcamp_keys keyed_get = CallNext keyed_get.
Proof.
  apply (auth_valid_key_forwarded bootcamp_keys keyed_get "mcs-bootcamp-2025").
  - reflexivity.
  - discriminate.
  - apply elem_of_singleton. reflexivity.
  - intros [H _]. discriminate H.
Defined.

Lemma auth_mcp_get_probe_witness : auth_middleware bootcamp_keys mcp_get = probe.
Proof. apply (auth_mcp_get_probe bootcamp_keys mcp_get); reflexivity. Defined.

Lemma auth_forward_sound_witness :
  keyed_get = keyed_get
  /\ (path keyed_get = "/health" \/ method keyed_get = "OPTIONS"
      \/ exists key, headers_get (headers keyed_get) "X-API-Key" = Some key
                     /\ key <> "" /\ key ∈ bootcamp_keys).
Proof.
  apply (auth_forward_sound bootcamp_keys keyed_get keyed_get).
  vm_compute. reflexivity.
Defined.

Lemma API_KEYS_clean_witness :
  clean_key "mcs-bootcamp-2025" /\ str_in "," "mcs-bootcamp-2025" = false.
Proof.
  apply (API_KEYS_clean (Some " mcs-bootcamp-2025 , second-key,")).
  unfold API_KEYS_of_env. apply elem_of_list_to_set. vm_compute.
  apply list_elem_of_here.
Defined.

Lemma unconfigured_rejects_all_witness :
  auth_middleware (API_KEYS_of_env None) wrong_key_get = rejection.
Proof.
  apply (unconfigured_rejects_all wrong_key_get).
  - discriminate.
  - discriminate.
  - intros [H _]. discriminate H.
Defined.

Lemma get_governance_same_normal_form_witness :
  normalize "MCP Servers" = normalize "mcp_servers"
  /\ fst (get_governance "mcp_servers" mcp_governance)
     = Ok [("feature", VStr "mcp-servers"); ("display_name", VStr "MCP Servers")].
Proof.
  assert (normalize "MCP Servers" = normalize "mcp_servers") as Hn by reflexivity.
  split; [exact Hn|].
  apply (proj1 (get_governance_same_normal_form mcp_governance _ _ Hn)).
  vm_compute. reflexivity.
Defined.

Lemma governance_absent_everywhere_witness :
  fst (check_governance_zone "nonexistent-feature" mcp_governance)
  = Ok "No governance information found for 'nonexistent-feature'."
  /\ fst (get_governance_resource "nonexistent-feature" mcp_governance)
     = Ok "Governance info for 'nonexistent-feature' not found.".
Proof.
  apply (governance_absent_everywhere mcp_governance "nonexistent-feature").
  - vm_compute. repeat constructor.
  - vm_compute. reflexivity.
Defined.

Lemma resources_need_title_witness :
  fst (get_tip_resource "tip-9" untitled_store) = Raise (KeyError "title").
Proof.
  apply (proj2 (proj2 (proj2
           (resources_need_title untitled_store "tip-9" untitled_tip eq_refl)))).
  reflexivity.
Defined.

Lemma troubleshooting_sections_omitted_witness :
  format_troubleshooting_full bare_practice = Ok "# Error handling".
Proof.
  apply (troubleshooting_sections_omitted bare_practice (VStr "Error handling"));
    reflexivity.
Defined.

Lemma troubleshoot_issue_single_hit_witness :
  fst (troubleshoot_issue "403" guide_store)
  = rbind (format_troubleshooting_full guide) (fun text =>
    rbind (subscript guide "id") (fun id =>
    Ok (text +:+ nl +:+ nl +:+ "Resource URI: troubleshooting://" +:+ str id))).
Proof.
  apply (troubleshoot_issue_single_hit guide_store "403" guide).
  vm_compute. reflexivity.
Defined.

Lemma mcp_accept_advertises_witness :
  exists r' accept,
    mcp_accept_middleware stripped_post = CallNext r'
    /\ path r' = path stripped_post /\ method r' = method stripped_post
    /\ headers_get (headers r') "accept" = Some accept
    /\ str_in "text/event-stream" accept = true.
Proof.
  apply (mcp_accept_advertises stripped_post).
  - repeat constructor.
  - reflexivity.
  - reflexivity.
Defined.

Lemma mcp_accept_collapses_witness :
  exists r',
    mcp_accept_middleware repeated_post = CallNext r'
    /\ NoDup (map fst (headers r'))
    /\ first_value (headers r') "accept" = Some streaming_accept
    /\ forall name, name <> "accept" ->
         first_value (headers r') name = last_value (headers repeated_post) name.
Proof. apply (mcp_accept_collapses repeated_post); reflexivity. Defined.

(** The repeated header of the sample request is collapsed to its last
    value. *)
Example repeated_post_forwarded :
  mcp_accept_middleware repeated_post
  = CallNext {| path := "/mcp"; method := "POST";
                headers := [("x-trace", "b"); ("accept", streaming_accept)] |}.
Proof. reflexivity. Qed.
